(** * NAMNGAM request admission layer: rate limiting, client identity,
      CSRF tokens, configuration validation and the edge middleware.

    The development is a shallow embedding of

      - [src/lib/security.ts]      (module [Security]),
      - [src/lib/csrf.ts]          (module [Csrf]),
      - [src/lib/env-validator.ts] (module [EnvValidator]),
      - [src/middleware.ts]        (module [Middleware]).

    Conventions of the embedding.

      - JavaScript numbers that hold counters and millisecond timestamps
        are integers far below 2^53; they are modelled as [Z].
      - [Date.now()] is an explicit argument [now].
      - A JavaScript string is a Rocq [string]; one [ascii] stands for
        one code unit, so the model covers the Latin-1 range.
      - A module-level [Map] is threaded through every function that
        touches it: the function takes the map and returns the new one.
      - [Math.random]/[randomBytes] output is an explicit argument. *)

From stdpp Require Import gmap strings list fin_maps.
From Stdlib Require Import ZArith Ascii.

Open Scope Z_scope.

(** ** JavaScript string and truthiness helpers *)

Module JS.

(** [!!v] for a value that is a string or [undefined]/[null]. *)
Definition truthy (v : option string) : bool :=
  match v with
  | Some (String _ _) => true
  | _ => false
  end.

(** [a || b] on string-or-undefined operands. *)
Definition or_else (a b : option string) : option string :=
  if truthy a then a else b.

(** [s.startsWith(p)]. *)
Definition startsWith (s p : string) : bool := String.prefix p s.

Definition nat_in_range (lo hi n : nat) : bool :=
  (Nat.leb lo n && Nat.leb n hi)%bool.

(** Code units removed by [String.prototype.trim]: TAB, LF, VT, FF, CR,
    SPACE and NBSP (the white space and line terminators below 256). *)
Definition is_space (c : ascii) : bool :=
  let n := nat_of_ascii c in
  (nat_in_range 9 13 n || Nat.eqb n 32 || Nat.eqb n 160)%bool.

Fixpoint trimStart (s : string) : string :=
  match s with
  | String c rest => if is_space c then trimStart rest else s
  | EmptyString => EmptyString
  end.

Fixpoint trimEnd (s : string) : string :=
  match s with
  | String c rest =>
      match trimEnd rest with
      | EmptyString => if is_space c then EmptyString else String c EmptyString
      | rest' => String c rest'
      end
  | EmptyString => EmptyString
  end.

(** [s.trim()]. *)
Definition trim (s : string) : string := trimEnd (trimStart s).

(** [s.split(sep)[0]] for a one-character separator: the text before
    the first separator, or all of [s] when there is none. *)
Fixpoint split_first (sep : ascii) (s : string) : string :=
  match s with
  | String c rest =>
      if Ascii.eqb c sep then EmptyString else String c (split_first sep rest)
  | EmptyString => EmptyString
  end.

(** ASCII lower-casing of one code unit ([A-Z] only). *)
Definition lower_ascii (c : ascii) : ascii :=
  let n := nat_of_ascii c in
  if nat_in_range 65 90 n then ascii_of_nat (n + 32) else c.

(** [s.toLowerCase()] on the ASCII letters. *)
Fixpoint toLowerCase (s : string) : string :=
  match s with
  | String c rest => String (lower_ascii c) (toLowerCase rest)
  | EmptyString => EmptyString
  end.

(** [/^(w1|w2|...)/i.test(s)] for words made of ASCII letters and
    digits: [s] starts with one of the words, ignoring ASCII case. *)
Definition starts_with_any_ci (words : list string) (s : string) : bool :=
  existsb (fun w => String.prefix w (toLowerCase s)) words.

(** Line terminators below 256, which the regular-expression dot does
    not match. *)
Definition is_line_terminator (c : ascii) : bool :=
  let n := nat_of_ascii c in (Nat.eqb n 10 || Nat.eqb n 13)%bool.

Fixpoint all_eq (c : ascii) (s : string) : bool :=
  match s with
  | String d rest => (Ascii.eqb c d && all_eq c rest)%bool
  | EmptyString => true
  end.

(** [/^(.)\1{n,}$/.test(s)]: one code unit that is not a line
    terminator, followed by at least [n] copies of it and nothing else. *)
Definition same_char_repeated (n : nat) (s : string) : bool :=
  match s with
  | String c rest =>
      (negb (is_line_terminator c) && all_eq c rest
       && Nat.leb n (String.length rest))%bool
  | EmptyString => false
  end.

(** [s] has a code unit that satisfies [p]: [/[class]/.test(s)] for a
    character class. *)
Fixpoint has (p : ascii → bool) (s : string) : bool :=
  match s with
  | String c rest => (p c || has p rest)%bool
  | EmptyString => false
  end.

(** [s.replace(/[class]/g, '')]: [s] without the code units of the class. *)
Fixpoint remove (p : ascii → bool) (s : string) : string :=
  match s with
  | String c rest => if p c then remove p rest else String c (remove p rest)
  | EmptyString => EmptyString
  end.

(** [s.substring(0, n)]: the first [n] code units. *)
Fixpoint take (n : nat) (s : string) : string :=
  match n, s with
  | S n, String c rest => String c (take n rest)
  | _, _ => EmptyString
  end.

(** [s.split(sep).pop()] for a one-character separator: the text after
    the last separator, or all of [s] when there is none. *)
Fixpoint split_last (sep : ascii) (s : string) : string :=
  match s with
  | String c rest =>
      if has (Ascii.eqb sep) rest then split_last sep rest
      else if Ascii.eqb c sep then rest
      else s
  | EmptyString => EmptyString
  end.

(** [s.charAt(i)]: a string of one code unit, empty out of range. *)
Definition charAt (i : nat) (s : string) : string :=
  match String.get i s with
  | Some c => String c EmptyString
  | None => EmptyString
  end.

(** [s.includes(w)]: [w] occurs somewhere in [s]. *)
Fixpoint includes (s w : string) : bool :=
  match s with
  | String _ rest => (String.prefix w s || includes rest w)%bool
  | EmptyString => String.prefix w EmptyString
  end.

End JS.

(** ** [src/lib/security.ts] *)

Module Security.

(** The values of [rateLimitStore]. [count++] on a stored object is an
    update of the map entry. *)
Record RateEntry := { count : Z; resetTime : Z }.

(** [SECURITY_CONFIG]. *)
Definition RATE_LIMIT_WINDOW : Z := 15 * 60 * 1000.
Definition RATE_LIMIT_MAX_REQUESTS : Z := 100.
Definition LOGIN_RATE_LIMIT_MAX : Z := 20.
Definition CSRF_TOKEN_EXPIRY : Z := 60 * 60 * 24.

(** The object returned by [rateLimit]: either
    [{ success: true, remaining }] or
    [{ success: false, error, resetTime }]. A field that the object
    literal does not have is [None]. *)
Record RateResult := {
  success : bool;
  remaining : option Z;
  error : option string;
  result_resetTime : option Z
}.

Definition allowed (rem : Z) : RateResult :=
  {| success := true; remaining := Some rem;
     error := None; result_resetTime := None |}.

Definition rejected (reset : Z) : RateResult :=
  {| success := false; remaining := None;
     error := Some "Rate limit exceeded"%string;
     result_resetTime := Some reset |}.

(** The clean-up loop: every entry with [resetTime < now] is deleted. *)
Definition cleanup (now : Z) (store : gmap string RateEntry)
  : gmap string RateEntry :=
  filter (fun kv : string * RateEntry => ¬ (resetTime kv.2 < now)) store.

(** [rateLimit(identifier, maxRequests)] at time [now]. *)
Definition rateLimit (identifier : string) (maxRequests : Z) (now : Z)
    (store : gmap string RateEntry) : RateResult * gmap string RateEntry :=
  let store := cleanup now store in
  match store !! identifier with
  | None =>
      (allowed (maxRequests - 1),
       <[identifier := {| count := 1;
                          resetTime := now + RATE_LIMIT_WINDOW |}]> store)
  | Some current =>
      if decide (maxRequests <= count current)
      then (rejected (resetTime current), store)
      else
        let c := count current + 1 in
        (allowed (maxRequests - c),
         <[identifier := {| count := c;
                            resetTime := resetTime current |}]> store)
  end.

(** The default value of the second parameter. *)
Definition rateLimit_default (identifier : string) :=
  rateLimit identifier RATE_LIMIT_MAX_REQUESTS.

(** Successive calls for one identifier, at the given times; returns
    the results in call order and the final store. *)
Fixpoint rateLimit_calls (identifier : string) (maxRequests : Z)
    (times : list Z) (store : gmap string RateEntry)
  : list RateResult * gmap string RateEntry :=
  match times with
  | [] => ([], store)
  | now :: rest =>
      let '(r, store1) := rateLimit identifier maxRequests now store in
      let '(rs, store2) := rateLimit_calls identifier maxRequests rest store1 in
      (r :: rs, store2)
  end.


(** What call number [k] (from 0) returns when the calls go into a live
    window that starts with count [c] and reset time [R]; a closed form
    of [rateLimit_calls] used to state its properties. *)
Definition nth_result (limit c R : Z) (k : nat) : RateResult :=
  if decide (c + Z.of_nat k < limit)
  then allowed (limit - (c + Z.of_nat k + 1))
  else rejected R.

(** *** [getClientIP] *)

(** [request.headers] is either an object with a [get] method (a
    [Headers] instance, which stores names in lower case) or a plain
    object read by property access. *)
Inductive HeaderBag :=
  | HeadersObject (h : gmap string string)
  | PlainObject (o : gmap string string).

(** The parts of [request: any] that [getClientIP] reads.
    [remoteAddress] is [request.connection?.remoteAddress]. *)
Record AnyRequest := {
  headers : option HeaderBag;
  header : option HeaderBag;
  ip : option string;
  remoteAddress : option string
}.

(** The local function [getHeader]. *)
Definition getHeader (bag : HeaderBag) (name : string) : option string :=
  match bag with
  | HeadersObject h => h !! JS.toLowerCase name
  | PlainObject o => JS.or_else (o !! name) (o !! JS.toLowerCase name)
  end.

(** [request.headers || request.header || {}]. *)
Definition request_headers (request : AnyRequest) : HeaderBag :=
  match headers request, header request with
  | Some b, _ => b
  | None, Some b => b
  | None, None => PlainObject ∅
  end.

Definition getClientIP (request : AnyRequest) : string :=
  let headers := request_headers request in
  let forwarded := getHeader headers "x-forwarded-for" in
  let realIP := getHeader headers "x-real-ip" in
  match forwarded, realIP with
  | Some (String _ _ as f), _ => JS.trim (JS.split_first "," f)
  | _, Some (String _ _ as r) => r
  | _, _ =>
      match JS.or_else (ip request)
              (JS.or_else (remoteAddress request) (Some "unknown"%string)) with
      | Some s => s
      | None => "unknown"%string
      end
  end.

(** *** [validateEnvironmentVariables] of [lib/security.ts] *)

Record EnvReport := { valid : bool; errors : list string }.

Definition required : list string :=
  ["DATABASE_URL"; "NEXTAUTH_URL"; "NEXTAUTH_SECRET"]%string.

(** One message per name of [names] that [env] lacks (or maps to the
    empty string), in the order of [names]. *)
Definition missing (prefix : string) (names : list string)
    (env : gmap string string) : list string :=
  flat_map (fun envVar =>
              if JS.truthy (env !! envVar) then [] else [prefix +:+ envVar])
           names.

Definition validateEnvironmentVariables (env : gmap string string)
  : EnvReport :=
  let errors := missing "Missing required environment variable: " required env in
  let errors :=
    match env !! "NEXTAUTH_SECRET"%string with
    | Some (String _ _ as secret) =>
        if Nat.ltb (String.length secret) 32
        then errors ++ ["NEXTAUTH_SECRET should be at least 32 characters long"%string]
        else errors
    | _ => errors
    end in
  let errors :=
    match env !! "DATABASE_URL"%string with
    | Some (String _ _ as db) =>
        if negb (JS.startsWith db "postgresql://")
        then errors ++ ["DATABASE_URL should start with postgresql://"%string]
        else errors
    | _ => errors
    end in
  {| valid := bool_decide (errors = []); errors := errors |}.

End Security.

(** ** The request and response objects of [next/server] *)

Module Next.

(** A [NextRequest]: [headers] is the [Headers] object (names in lower
    case), [cookies] maps a cookie name to its value, [pathname] is
    [request.nextUrl.pathname]. *)
Record NextRequest := {
  method : string;
  url : string;
  pathname : string;
  headers : gmap string string;
  cookies : gmap string string;
  ip : option string
}.

(** [getClientIP] sees a [NextRequest] as a request with a [Headers]
    object, no [header] and no [connection]. *)
Definition as_any (request : NextRequest) : Security.AnyRequest :=
  {| Security.headers := Some (Security.HeadersObject (headers request));
     Security.header := None;
     Security.ip := ip request;
     Security.remoteAddress := None |}.

(** JSON values of the response bodies; the serialisation done by
    [JSON.stringify] and [NextResponse.json] is not modelled. *)
Inductive JSONValue :=
  | JBool (b : bool)
  | JString (s : string).

(** A flat object literal: its properties in order. *)
Definition JSON : Type := list (string * JSONValue).

(** [new URL(path, base)] together with its [searchParams]. *)
Record URL := {
  url_base : string;
  url_pathname : string;
  searchParams : list (string * string)
}.

Definition URL_new (path base : string) : URL :=
  {| url_base := base; url_pathname := path; searchParams := [] |}.

(** [params.set(name, value)]: the first pair named [name] gets the
    value and the other pairs of that name go; a new pair is appended
    when there is none. *)
Fixpoint params_set (name value : string) (l : list (string * string))
  : list (string * string) :=
  match l with
  | [] => [(name, value)]
  | (k, v) :: rest =>
      if String.eqb k name
      then (name, value) :: List.filter (fun p => negb (String.eqb p.1 name)) rest
      else (k, v) :: params_set name value rest
  end.

Definition searchParams_set (name value : string) (u : URL) : URL :=
  {| url_base := url_base u; url_pathname := url_pathname u;
     searchParams := params_set name value (searchParams u) |}.

(** A [NextResponse]. [location] is the target of a redirect, kept as
    a structured URL instead of the text of the [Location] header. *)
Record NextResponse := {
  status : Z;
  resp_headers : gmap string string;
  body : option JSON;
  location : option URL
}.

(** [headers.set(name, value)] and [headers.get(name)]: header names
    are case-insensitive and stored in lower case. *)
Definition Headers_set (name value : string) (h : gmap string string)
  : gmap string string :=
  <[JS.toLowerCase name := value]> h.

Definition Headers_get (name : string) (h : gmap string string)
  : option string :=
  h !! JS.toLowerCase name.

Definition set_header (name value : string) (r : NextResponse)
  : NextResponse :=
  {| status := status r;
     resp_headers := Headers_set name value (resp_headers r);
     body := body r; location := location r |}.

(** [NextResponse.next()]. *)
Definition next : NextResponse :=
  {| status := 200;
     resp_headers := Headers_set "x-middleware-next" "1" ∅;
     body := None; location := None |}.

(** [NextResponse.json(value, { status })]. *)
Definition json (value : JSON) (st : Z) : NextResponse :=
  {| status := st;
     resp_headers := Headers_set "content-type" "application/json" ∅;
     body := Some value; location := None |}.

(** [NextResponse.redirect(url)]. *)
Definition redirect (target : URL) : NextResponse :=
  {| status := 307; resp_headers := ∅;
     body := None; location := Some target |}.

(** [{ success: false, error: message }]. *)
Definition failure (message : string) : JSON :=
  [("success"%string, JBool false); ("error"%string, JString message)].

End Next.

(** ** [src/lib/csrf.ts] *)

Module Csrf.
Import Next.

(** The values of [csrfTokens]. *)
Record StoredToken := { token : string; expires : Z }.

(** The session cookie that both [validateCSRFToken] and the token
    endpoint read. *)
Definition sessionToken (request : NextRequest) : option string :=
  JS.or_else (cookies request !! "next-auth.session-token"%string)
             (cookies request !! "__Secure-next-auth.session-token"%string).

(** [validateCSRFToken(request, token)] at time [now]. *)
Definition validateCSRFToken (request : NextRequest) (presented : string)
    (now : Z) (csrfTokens : gmap string StoredToken)
  : bool * gmap string StoredToken :=
  match sessionToken request with
  | Some (String _ _ as session) =>
      match csrfTokens !! session with
      | None => (false, csrfTokens)
      | Some storedToken =>
          if negb (String.eqb (token storedToken) presented)
          then (false, csrfTokens)
          else if decide (expires storedToken < now)
          then (false, delete session csrfTokens)
          else (true, csrfTokens)
      end
  | _ => (false, csrfTokens)
  end.

(** [setCSRFToken(sessionToken)] at time [now]; [fresh] is the value
    that [generateCSRFToken] draws. The clean-up loop reads the clock
    again for every entry; the model uses the one [now] throughout. *)
Definition setCSRFToken (session : string) (fresh : string) (now : Z)
    (csrfTokens : gmap string StoredToken)
  : string * gmap string StoredToken :=
  let expires_at := now + 24 * 60 * 60 * 1000 in
  let csrfTokens :=
    <[session := {| token := fresh; expires := expires_at |}]> csrfTokens in
  (fresh,
   filter (fun kv : string * StoredToken => ¬ (expires kv.2 < now)) csrfTokens).

Section Protection.
(** The wrapped route handler acts on the state of the application,
    of which this layer knows nothing. *)
Context {AppState : Type}.
Variable handler : NextRequest → AppState → NextResponse * AppState.

(** [withCSRFProtection(handler)(request)] at time [now]. *)
Definition withCSRFProtection (request : NextRequest) (now : Z)
    (app : AppState) (csrfTokens : gmap string StoredToken)
  : NextResponse * AppState * gmap string StoredToken :=
  if String.eqb (method request) "GET"
  then let '(r, app) := handler request app in (r, app, csrfTokens)
  else
    match headers request !! "x-csrf-token"%string with
    | Some (String _ _ as csrfToken) =>
        let '(isValid, csrfTokens) :=
          validateCSRFToken request csrfToken now csrfTokens in
        if negb isValid
        then (json (failure "Invalid CSRF token") 403, app, csrfTokens)
        else let '(r, app) := handler request app in (r, app, csrfTokens)
    | _ => (json (failure "CSRF token missing") 403, app, csrfTokens)
    end.
End Protection.

(** The [GET] endpoint that hands out a token, at time [now]; [fresh]
    is the value that [generateCSRFToken] draws. *)
Definition GET (request : NextRequest) (fresh : string) (now : Z)
    (csrfTokens : gmap string StoredToken)
  : NextResponse * gmap string StoredToken :=
  match sessionToken request with
  | Some (String _ _ as session) =>
      let '(issued, csrfTokens) := setCSRFToken session fresh now csrfTokens in
      (json [("success"%string, JBool true); ("csrfToken"%string, JString issued)]
            200,
       csrfTokens)
  | _ => (json (failure "Not authenticated") 401, csrfTokens)
  end.

End Csrf.

(** ** [src/lib/env-validator.ts] *)

Module EnvValidator.

Record EnvValidationResult := {
  valid : bool;
  errors : list string;
  warnings : list string
}.

(** What the validator reads of a parsed URL. *)
Record URLParts := { protocol : string; hostname : string }.

Definition required : list string :=
  ["DATABASE_URL"; "NEXTAUTH_URL"; "NEXTAUTH_SECRET"; "NODE_ENV"]%string.

Definition recommended : list string :=
  ["REDIS_URL"; "GOOGLE_ANALYTICS_ID"; "FACEBOOK_PIXEL_ID"]%string.

(** The three [weakPatterns], in order. *)
Definition weakPatterns : list (string → bool) :=
  [ JS.starts_with_any_ci ["test"; "dev"; "example"; "default"]%string;
    JS.starts_with_any_ci ["123"; "password"; "secret"]%string;
    JS.same_char_repeated 31 ].

Definition is_weak (secret : string) : bool :=
  existsb (fun pattern => pattern secret) weakPatterns.

(** The words of the first two [weakPatterns], in one list. *)
Definition placeholder_words : list string :=
  ["test"; "dev"; "example"; "default"; "123"; "password"; "secret"]%string.

Definition push_if (cond : bool) (message : string) (l : list string)
  : list string :=
  if cond then l ++ [message] else l.

Section Validator.
(** The platform's URL parser: [new URL(text)], [None] when it
    throws. *)
Variable parse_URL : string → option URLParts.

Definition validateEnvironmentVariables (env : gmap string string)
  : EnvValidationResult :=
  let NODE_ENV := env !! "NODE_ENV"%string in
  let production := bool_decide (NODE_ENV = Some "production"%string) in
  let errors :=
    Security.missing "Missing required environment variable: " required env in
  let warnings :=
    Security.missing "Missing recommended environment variable: "
      recommended env in
  let dbUrl :=
    match env !! "DATABASE_URL"%string with
    | Some (String _ _ as text) => Some (parse_URL text)
    | _ => None
    end in
  let errors :=
    match dbUrl with
    | Some (Some dbUrl) =>
        push_if (negb (String.eqb (protocol dbUrl) "postgresql:"))
          "DATABASE_URL must use postgresql:// protocol" errors
    | Some None => errors ++ ["DATABASE_URL is not a valid URL"%string]
    | None => errors
    end in
  let warnings :=
    match dbUrl with
    | Some (Some dbUrl) =>
        push_if ((String.eqb (hostname dbUrl) ""
                  || String.eqb (hostname dbUrl) "localhost")
                 && production)
          "DATABASE_URL should not use localhost in production" warnings
    | _ => warnings
    end in
  let errors :=
    match env !! "NEXTAUTH_URL"%string with
    | Some (String _ _ as text) =>
        match parse_URL text with
        | Some authUrl =>
            let errors :=
              push_if (negb (String.eqb (protocol authUrl) "http:"
                             || String.eqb (protocol authUrl) "https:"))
                "NEXTAUTH_URL must use http:// or https:// protocol" errors in
            push_if (production && negb (String.eqb (protocol authUrl) "https:"))
              "NEXTAUTH_URL must use https:// in production" errors
        | None => errors ++ ["NEXTAUTH_URL is not a valid URL"%string]
        end
    | _ => errors
    end in
  let errors :=
    match env !! "NEXTAUTH_SECRET"%string with
    | Some (String _ _ as secret) =>
        let errors :=
          push_if (Nat.ltb (String.length secret) 32)
            "NEXTAUTH_SECRET must be at least 32 characters long" errors in
        push_if (is_weak secret)
          "NEXTAUTH_SECRET appears to be weak or default" errors
    | _ => errors
    end in
  let errors :=
    match NODE_ENV with
    | Some (String _ _ as tag) =>
        push_if (negb (bool_decide
                         (tag ∈ ["development"; "production"; "test"]%string)))
          "NODE_ENV must be one of: development, production, test" errors
    | _ => errors
    end in
  {| valid := bool_decide (errors = []);
     errors := errors; warnings := warnings |}.
(** The messages that each block of the validator pushes, as lists of
    their own; [validateEnvironmentVariables] appends them in order
    (lemmas [validate_errors] and [validate_warnings]). *)
Definition database_errors (env : gmap string string) : list string :=
  match env !! "DATABASE_URL"%string with
  | Some (String _ _ as text) =>
      match parse_URL text with
      | Some dbUrl =>
          if negb (String.eqb (protocol dbUrl) "postgresql:")
          then ["DATABASE_URL must use postgresql:// protocol"%string]
          else []
      | None => ["DATABASE_URL is not a valid URL"%string]
      end
  | _ => []
  end.

Definition database_warnings (env : gmap string string) : list string :=
  match env !! "DATABASE_URL"%string with
  | Some (String _ _ as text) =>
      match parse_URL text with
      | Some dbUrl =>
          if ((String.eqb (hostname dbUrl) ""
               || String.eqb (hostname dbUrl) "localhost")
              && bool_decide (env !! "NODE_ENV"%string = Some "production"%string))%bool
          then ["DATABASE_URL should not use localhost in production"%string]
          else []
      | None => []
      end
  | _ => []
  end.

Definition base_url_errors (env : gmap string string) : list string :=
  match env !! "NEXTAUTH_URL"%string with
  | Some (String _ _ as text) =>
      match parse_URL text with
      | Some authUrl =>
          (if negb (String.eqb (protocol authUrl) "http:"
                    || String.eqb (protocol authUrl) "https:")
           then ["NEXTAUTH_URL must use http:// or https:// protocol"%string]
           else [])
          ++ (if (bool_decide (env !! "NODE_ENV"%string = Some "production"%string)
                  && negb (String.eqb (protocol authUrl) "https:"))%bool
              then ["NEXTAUTH_URL must use https:// in production"%string]
              else [])
      | None => ["NEXTAUTH_URL is not a valid URL"%string]
      end
  | _ => []
  end.

End Validator.

Definition secret_errors (env : gmap string string) : list string :=
  match env !! "NEXTAUTH_SECRET"%string with
  | Some (String _ _ as secret) =>
      (if Nat.ltb (String.length secret) 32
       then ["NEXTAUTH_SECRET must be at least 32 characters long"%string]
       else [])
      ++ (if is_weak secret
          then ["NEXTAUTH_SECRET appears to be weak or default"%string]
          else [])
  | _ => []
  end.

Definition environment_tag_errors (env : gmap string string) : list string :=
  match env !! "NODE_ENV"%string with
  | Some (String _ _ as tag) =>
      if negb (bool_decide (tag ∈ ["development"; "production"; "test"]%string))
      then ["NODE_ENV must be one of: development, production, test"%string]
      else []
  | _ => []
  end.

End EnvValidator.

(** ** [src/middleware.ts] *)

Module Middleware.
Import Next.

(** The [exp] property of a decoded session token: absent, a number of
    seconds, or a value of another type. *)
Inductive ExpClaim :=
  | ExpMissing
  | ExpNumber (seconds : Z)
  | ExpOther.

Record JWT := { exp : ExpClaim }.

(** [token.exp && typeof token.exp === 'number' &&
     token.exp < Date.now() / 1000]; the division is exact over the
    rationals, so the test is [seconds * 1000 < now]. *)
Definition expired (token : JWT) (now : Z) : bool :=
  match exp token with
  | ExpNumber seconds =>
      (negb (Z.eqb seconds 0) && Z.ltb (seconds * 1000) now)%bool
  | _ => false
  end.

(** The five [response.headers.set] calls, in order. *)
Definition securityHeaders : list (string * string) :=
  [ ("X-Content-Type-Options", "nosniff");
    ("X-Frame-Options", "DENY");
    ("X-XSS-Protection", "1; mode=block");
    ("Referrer-Policy", "strict-origin-when-cross-origin");
    ("Permissions-Policy", "camera=(), microphone=(), geolocation=()") ]%string.

Definition set_headers (l : list (string * string)) (r : NextResponse)
  : NextResponse :=
  foldl (fun r kv => set_header kv.1 kv.2 r) r l.

(** [new URL('/admin/login', request.url)] with its parameters set. *)
Definition login_url (request : NextRequest) (params : list (string * string))
  : URL :=
  foldl (fun u kv => searchParams_set kv.1 kv.2 u)
        (URL_new "/admin/login" (url request)) params.

(** The 429 response: [new NextResponse(JSON.stringify(...),
    { status: 429, headers: { 'Content-Type': 'application/json' } })]. *)
Definition rate_limit_response : NextResponse :=
  json (failure "Rate limit exceeded") 429.

(** [response]: [NextResponse.next()] after the five [set] calls. *)
Definition response_with_headers : NextResponse :=
  set_headers securityHeaders next.

Section Middleware.
(** [getToken] of next-auth with the configured secret: the decoded
    session token, [None] when there is no valid one. *)
Variable getToken : NextRequest → option JWT.
(** The next-intl middleware. *)
Variable intlMiddleware : NextRequest → NextResponse.
(** [Object.entries] applied to a [Headers] object. *)
Variable Object_entries : gmap string string → list (string * string).

(** The rate-limiting block for API routes: [Some r] when it
    returns the response [r], and the new [apiRateLimit]. *)
Definition api_rate_limit (clientIP : string) (now : Z)
    (apiRateLimit : gmap string Security.RateEntry)
  : option NextResponse * gmap string Security.RateEntry :=
  let rateLimitKey := "api:" +:+ clientIP in
  let apiRateLimit := Security.cleanup now apiRateLimit in
  match apiRateLimit !! rateLimitKey with
  | None =>
      (None,
       <[rateLimitKey :=
           {| Security.count := 1;
              Security.resetTime := now + Security.RATE_LIMIT_WINDOW |}]>
         apiRateLimit)
  | Some current =>
      if decide (Security.RATE_LIMIT_MAX_REQUESTS <= Security.count current)
      then (Some rate_limit_response, apiRateLimit)
      else
        (None,
         <[rateLimitKey :=
             {| Security.count := Security.count current + 1;
                Security.resetTime := Security.resetTime current |}]>
           apiRateLimit)
  end.

(** The authorization block for admin routes: [Some r] when it
    returns the redirect [r]. *)
Definition admin_auth (request : NextRequest) (now : Z)
  : option NextResponse :=
  match getToken request with
  | None =>
      Some (redirect (login_url request
                        [("callbackUrl"%string, pathname request)]))
  | Some token =>
      if expired token now
      then Some (redirect (login_url request
                             [("callbackUrl"%string, pathname request);
                              ("error", "session_expired")%string]))
      else None
  end.

(** [middleware(request)] at time [now]. The route matcher of [config]
    is applied by the framework before the function is called and is
    not part of it. An admin path reads the clock once, in the
    authorization block, and an API path once, in the rate-limiting
    block, so one [now] serves both. *)
Definition middleware (request : NextRequest) (now : Z)
    (apiRateLimit : gmap string Security.RateEntry)
  : NextResponse * gmap string Security.RateEntry :=
  let pathname := pathname request in
  let clientIP := Security.getClientIP (as_any request) in
  let response := response_with_headers in
  if (JS.startsWith pathname "/admin" || JS.startsWith pathname "/api"
      || JS.startsWith pathname "/_next" || JS.startsWith pathname "/uploads")%bool
  then
    let '(limited, apiRateLimit) :=
      if (JS.startsWith pathname "/api"
          && negb (JS.startsWith pathname "/api/public/settings"))%bool
      then api_rate_limit clientIP now apiRateLimit
      else (None, apiRateLimit) in
    match limited with
    | Some r => (r, apiRateLimit)
    | None =>
        let denied :=
          if (JS.startsWith pathname "/admin"
              && negb (String.eqb pathname "/admin/login"))%bool
          then admin_auth request now
          else None in
        match denied with
        | Some r => (r, apiRateLimit)
        | None => (response, apiRateLimit)
        end
    end
  else
    let intlResponse := intlMiddleware request in
    (set_headers (Object_entries (resp_headers response)) intlResponse,
     apiRateLimit).
(** Successive requests, at the given times; returns the responses in
    order and the final [apiRateLimit]. *)
Fixpoint middleware_calls (request : NextRequest) (times : list Z)
    (apiRateLimit : gmap string Security.RateEntry)
  : list NextResponse * gmap string Security.RateEntry :=
  match times with
  | [] => ([], apiRateLimit)
  | now :: rest =>
      let '(r, apiRateLimit) := middleware request now apiRateLimit in
      let '(rs, apiRateLimit) := middleware_calls request rest apiRateLimit in
      (r :: rs, apiRateLimit)
  end.

End Middleware.

(** The module-level check that runs when [middleware.ts] is loaded:
    [logged] is the array passed to [console.error], if any, and
    [thrown] tells whether the [Error] is thrown. *)
Record Startup := { logged : option (list string); thrown : bool }.

Definition startup (env : gmap string string) : Startup :=
  let envValidation := Security.validateEnvironmentVariables env in
  if negb (Security.valid envValidation)
  then {| logged := Some (Security.errors envValidation);
          thrown := bool_decide (env !! "NODE_ENV"%string = Some "production"%string) |}
  else {| logged := None; thrown := false |}.

End Middleware.

(** ** [src/lib/security.ts]: uploads, passwords, tokens and text *)

Module FileUpload.

(** What [validateFileUpload] reads of a [File]. *)
Record File := { name : string; size : Z; type : string }.

Definition MAX_FILE_SIZE : Z := 5 * 1024 * 1024.

Definition ALLOWED_IMAGE_TYPES : list string :=
  ["image/jpeg"; "image/jpg"; "image/png"; "image/webp"; "image/gif"]%string.

(** The object [mimeToExt], read by property access. *)
Definition mimeToExt (mime : string) : option string :=
  if String.eqb mime "image/jpeg" then Some "jpg"%string
  else if String.eqb mime "image/jpg" then Some "jpg"%string
  else if String.eqb mime "image/png" then Some "png"%string
  else if String.eqb mime "image/webp" then Some "webp"%string
  else if String.eqb mime "image/gif" then Some "gif"%string
  else None.

(** The three error messages. [TooLarge limit] stands for
    ["File size exceeds " + limit / (1024 * 1024) + "MB limit"], whose
    number formatting is not modelled; [InvalidType] for ["Invalid file
    type. Only JPEG, PNG, WebP, and GIF images are allowed"];
    [ExtensionMismatch] for ["File extension does not match file type"]. *)
Inductive UploadError :=
  | TooLarge (limit : Z)
  | InvalidType
  | ExtensionMismatch.

Record UploadResult := { valid : bool; error : option UploadError }.

(** [file.name.split('.').pop()?.toLowerCase()]. The extension is only
    compared with lower-case ASCII words, for which lower-casing the
    ASCII letters decides the same as the full [toLowerCase]. *)
Definition extension (file : File) : string :=
  JS.toLowerCase (JS.split_last "." (name file)).

Definition validateFileUpload (file : File) (maxSize : Z) : UploadResult :=
  if decide (maxSize < size file)
  then {| valid := false; error := Some (TooLarge maxSize) |}
  else if negb (bool_decide (type file ∈ ALLOWED_IMAGE_TYPES))
  then {| valid := false; error := Some InvalidType |}
  else if negb (bool_decide (Some (extension file) = mimeToExt (type file)))
  then {| valid := false; error := Some ExtensionMismatch |}
  else {| valid := true; error := None |}.

End FileUpload.

Module Password.

Definition PASSWORD_MIN_LENGTH : nat := 8.

Definition is_upper (c : ascii) : bool := JS.nat_in_range 65 90 (nat_of_ascii c).
Definition is_lower (c : ascii) : bool := JS.nat_in_range 97 122 (nat_of_ascii c).
Definition is_digit (c : ascii) : bool := JS.nat_in_range 48 57 (nat_of_ascii c).

(** The class of the last pattern, by code: exclamation mark, at sign,
    hash, dollar, percent, caret, ampersand, star, parentheses, comma,
    dot, question mark, double quote, colon, braces, bar, angle
    brackets. *)
Definition symbol_codes : list nat :=
  [33; 64; 35; 36; 37; 94; 38; 42; 40; 41; 44; 46; 63; 34; 58; 123; 125; 124;
   60; 62]%nat.

Definition is_symbol (c : ascii) : bool :=
  existsb (Nat.eqb (nat_of_ascii c)) symbol_codes.

Record PasswordReport := { valid : bool; errors : list string }.

(** [validatePassword(password)]; the four [PASSWORD_REQUIRE_*] flags
    are [true]. *)
Definition validatePassword (password : string) : PasswordReport :=
  let errors := [] in
  let errors :=
    EnvValidator.push_if (Nat.ltb (String.length password) PASSWORD_MIN_LENGTH)
      "Password must be at least 8 characters long" errors in
  let errors :=
    EnvValidator.push_if (negb (JS.has is_upper password))
      "Password must contain at least one uppercase letter" errors in
  let errors :=
    EnvValidator.push_if (negb (JS.has is_lower password))
      "Password must contain at least one lowercase letter" errors in
  let errors :=
    EnvValidator.push_if (negb (JS.has is_digit password))
      "Password must contain at least one number" errors in
  let errors :=
    EnvValidator.push_if (negb (JS.has is_symbol password))
      "Password must contain at least one special character" errors in
  {| valid := bool_decide (errors = []); errors := errors |}.

End Password.

Module SecureToken.

Definition chars : string :=
  "ABCDEFGHIJKLMNOPQRSTUVWXYZabcdefghijklmnopqrstuvwxyz0123456789".

(** The loop of [generateSecureToken] with [remaining] iterations to go,
    at iteration [i]; [draw i] is the value of
    [Math.floor(Math.random() * chars.length)] in iteration [i]. *)
Fixpoint loop (remaining i : nat) (draw : nat → nat) (result : string) : string :=
  match remaining with
  | O => result
  | S remaining =>
      loop remaining (S i) draw (result +:+ JS.charAt (draw i) chars)
  end.

(** The code units of [chars]: the ASCII letters and digits. *)
Definition alphanumeric (c : ascii) : bool :=
  (Password.is_upper c || Password.is_lower c || Password.is_digit c)%bool.

(** [generateSecureToken(length)] for an integer [length]. *)
Definition generateSecureToken (length : Z) (draw : nat → nat) : string :=
  loop (Z.to_nat length) 0 draw "".

End SecureToken.

Module Sanitize.

Definition is_angle (c : ascii) : bool :=
  (Ascii.eqb c "<" || Ascii.eqb c ">")%bool.

(** [sanitizeInput(input)]. *)
Definition sanitizeInput (input : string) : string :=
  JS.take 1000 (JS.trim (JS.remove is_angle input)).

End Sanitize.

(** ** [src/lib/file-validator.ts] *)

Module FileValidator.

(** The table [FILE_SIGNATURES]. *)
Definition FILE_SIGNATURES : list (string * list Z) :=
  [ ("image/jpeg"%string, [255; 216; 255]);
    ("image/png"%string, [137; 80; 78; 71]);
    ("image/gif"%string, [71; 73; 70]);
    ("image/webp"%string, [82; 73; 70; 70]) ].

(** [FILE_SIGNATURES[mimeType]] for a [mimeType] that is not the name
    of a property that every object inherits ([constructor],
    [toString], ...): the entry of the table, if there is one. *)
Definition signature_of (mimeType : string) : option (list Z) :=
  snd <$> List.find (fun entry => String.eqb entry.1 mimeType) FILE_SIGNATURES.

(** What the validator reads of [sharp(buffer).metadata()] and
    [sharp(buffer).stats()]: a missing number is [None], [info] is the
    stats object if there is one and [channels] tells whether its
    [channels] property is truthy. *)
Record Metadata := { width : option Z; height : option Z }.
Record Stats := { channels : bool }.

Record ContentResult := { valid : bool; error : option string }.

Definition invalid (message : string) : ContentResult :=
  {| valid := false; error := Some message |}.

(** [!n] for a number or [undefined]. *)
Definition falsy (n : option Z) : bool :=
  match n with
  | Some n => Z.eqb n 0
  | None => true
  end.

Definition exceeds (n : option Z) (bound : Z) : bool :=
  match n with
  | Some n => Z.ltb bound n
  | None => false
  end.

(** The loop over the signature: [true] when some position [i] has
    [fileSignature[i] !== signature[i]], a position past the end of the
    file included. *)
Fixpoint signature_differs (fileSignature signature : list Z) : bool :=
  match signature, fileSignature with
  | [], _ => false
  | _ :: _, [] => true
  | s :: signature, b :: fileSignature =>
      (negb (Z.eqb b s) || signature_differs fileSignature signature)%bool
  end.

Section Validator.
(** The image library: [None] when the call throws. *)
Variable sharp_metadata : list Z → option Metadata.
Variable sharp_stats : list Z → option (option Stats).

(** [validateFileContent(buffer, mimeType)]; [buffer] is the list of
    its bytes. *)
Definition validateFileContent (buffer : list Z) (mimeType : string)
  : ContentResult :=
  let mismatch :=
    match signature_of mimeType with
    | Some signature =>
        signature_differs (List.firstn (length signature) buffer) signature
    | None => false
    end in
  if mismatch then invalid "File content does not match declared type"
  else if JS.startsWith mimeType "image/"
  then
    match sharp_metadata buffer with
    | None => invalid "Image processing failed"
    | Some metadata =>
        if (falsy (width metadata) || falsy (height metadata))%bool
        then invalid "Invalid image dimensions"
        else if (exceeds (width metadata) 5000
                 || exceeds (height metadata) 5000)%bool
        then invalid "Image dimensions too large"
        else
          match sharp_stats buffer with
          | None => invalid "Image processing failed"
          | Some None => invalid "Invalid image data"
          | Some (Some info) =>
              if negb (channels info) then invalid "Invalid image data"
              else {| valid := true; error := None |}
          end
    end
  else {| valid := true; error := None |}.
End Validator.

End FileValidator.

(** ** [src/lib/security-metrics.ts] *)

Module SecurityMetrics.

(** The counts that [calculateRiskScore] reads. *)
Record Metrics := {
  failedLogins : Z;
  suspiciousActivities : Z;
  securityViolations : Z
}.

Definition calculateRiskScore (metrics : Metrics) : Z :=
  let score := 0 in
  let score := score + Z.min (failedLogins metrics * 5) 30 in
  let score := score + Z.min (suspiciousActivities metrics * 10) 40 in
  let score := score + Z.min (securityViolations metrics * 20) 30 in
  Z.min score 100.

End SecurityMetrics.

(** ** Sample inputs *)

Module Samples.
Import Next.

(** A request for [path] on the site. *)
Definition request_to (path method : string)
    (headers cookies : gmap string string) : NextRequest :=
  {| method := method;
     url := "https://namngam.example" +:+ path;
     pathname := path;
     headers := headers;
     cookies := cookies;
     ip := Some "203.0.113.7"%string |}.

(** A route handler that counts its runs in the application state. *)
Definition counting_handler (request : NextRequest) (runs : nat)
  : NextResponse * nat :=
  (json [("success"%string, JBool true)] 200, S runs).

(** The platform's URL parser on the URLs of the sample configurations. *)
Definition parse_URL (text : string) : option EnvValidator.URLParts :=
  if String.eqb text "postgresql://app:pw@db.namngam.example:5432/namngam"
  then Some {| EnvValidator.protocol := "postgresql:";
               EnvValidator.hostname := "db.namngam.example" |}
  else if String.eqb text "mysql://app:pw@db.namngam.example:3306/namngam"
  then Some {| EnvValidator.protocol := "mysql:";
               EnvValidator.hostname := "db.namngam.example" |}
  else if String.eqb text "http://namngam.example"
  then Some {| EnvValidator.protocol := "http:";
               EnvValidator.hostname := "namngam.example" |}
  else if String.eqb text "https://namngam.example"
  then Some {| EnvValidator.protocol := "https:";
               EnvValidator.hostname := "namngam.example" |}
  else None.

(** A configuration with every required and recommended variable. *)
Definition env (tag base secret db : string) : gmap string string :=
  list_to_map
    [ ("DATABASE_URL", db); ("NEXTAUTH_URL", base);
      ("NEXTAUTH_SECRET", secret); ("NODE_ENV", tag);
      ("REDIS_URL", "redis://cache.namngam.example:6379");
      ("GOOGLE_ANALYTICS_ID", "G-0000000000");
      ("FACEBOOK_PIXEL_ID", "1234567890") ]%string.

Definition good_secret : string := "q7Vx2LmZ9tRb4WcY8hNs3KdF6pGj1AeU".
Definition good_db : string :=
  "postgresql://app:pw@db.namngam.example:5432/namngam".

End Samples.

(** * Properties *)

(** ** The rate limiter *)

Section RateLimiter.
Import Security.

Implicit Types (store : gmap string RateEntry) (e : RateEntry).
Implicit Types (id : string) (limit now : Z).

(** What the clean-up loop leaves under one key. *)
Lemma cleanup_lookup now store id :
  cleanup now store !! id =
    match store !! id with
    | Some e => if decide (resetTime e < now) then None else Some e
    | None => None
    end.
Proof.
  unfold cleanup. rewrite map_lookup_filter.
  destruct (store !! id) as [e|]; simpl; [|done].
  destruct (decide (resetTime e < now)); case_guard; simpl; done || lia.
Qed.

Lemma cleanup_lookup_live now store id e :
  store !! id = Some e → now <= resetTime e →
  cleanup now store !! id = Some e.
Proof.
  intros He Hlive. rewrite cleanup_lookup, He.
  destruct (decide (resetTime e < now)); [lia | done].
Qed.

Lemma cleanup_lookup_expired now store id :
  (∀ e, store !! id = Some e → resetTime e < now) →
  cleanup now store !! id = None.
Proof.
  intros Hexp. rewrite cleanup_lookup.
  destruct (store !! id) as [e|] eqn:He; [|done].
  specialize (Hexp e eq_refl).
  destruct (decide (resetTime e < now)); [done | lia].
Qed.

(** No window, or an expired one: a new window is created. *)
Lemma rateLimit_new_window id limit now store :
  (∀ e, store !! id = Some e → resetTime e < now) →
  rateLimit id limit now store =
    (allowed (limit - 1),
     <[id := {| count := 1; resetTime := now + RATE_LIMIT_WINDOW |}]>
       (cleanup now store)).
Proof.
  intros Hexp. unfold rateLimit.
  by rewrite (cleanup_lookup_expired _ _ _ Hexp).
Qed.

(** A live window below the limit: the count is incremented. *)
Lemma rateLimit_increment id limit now store e :
  store !! id = Some e → now <= resetTime e → count e < limit →
  rateLimit id limit now store =
    (allowed (limit - (count e + 1)),
     <[id := {| count := count e + 1; resetTime := resetTime e |}]>
       (cleanup now store)).
Proof.
  intros He Hlive Hlt. unfold rateLimit.
  rewrite (cleanup_lookup_live _ _ _ _ He Hlive).
  destruct (decide (limit <= count e)); [lia | done].
Qed.

(** A live window at the limit: the call is refused and the store is
    only cleaned. *)
Lemma rateLimit_refuse id limit now store e :
  store !! id = Some e → now <= resetTime e → limit <= count e →
  rateLimit id limit now store = (rejected (resetTime e), cleanup now store).
Proof.
  intros He Hlive Hge. unfold rateLimit.
  rewrite (cleanup_lookup_live _ _ _ _ He Hlive).
  destruct (decide (limit <= count e)); [done | lia].
Qed.

Lemma rateLimit_calls_live id limit (ts : list Z) :
  ∀ store c R,
    store !! id = Some {| count := c; resetTime := R |} →
    Forall (fun t => t <= R) ts →
    (∀ (k : nat) r,
        (rateLimit_calls id limit ts store).1 !! k = Some r →
        r = nth_result limit c R k)
    ∧ (rateLimit_calls id limit ts store).2 !! id =
        Some {| count := Z.max c (Z.min (c + Z.of_nat (length ts)) limit);
                resetTime := R |}.
Proof.
  induction ts as [|t ts IH]; intros store c R He Hts.
  - simpl. split; [intros k r Hk; by rewrite lookup_nil in Hk|].
    rewrite He. do 2 f_equal. lia.
  - apply Forall_cons in Hts as [Ht Hts]. simpl.
    destruct (decide (c < limit)) as [Hlt|Hge].
    + rewrite (rateLimit_increment id limit t store _ He Ht Hlt). simpl.
      set (store1 := <[id := _]> (cleanup t store)).
      assert (Hs1 : store1 !! id = Some {| count := c + 1; resetTime := R |})
        by apply lookup_insert_eq.
      destruct (IH store1 (c + 1) R Hs1 Hts) as [IHr IHs].
      destruct (rateLimit_calls id limit ts store1) as [rs store2]. simpl in *.
      split.
      * intros [|k] r Hk; simpl in Hk.
        -- inversion Hk; subst. unfold nth_result.
           destruct (decide (c + Z.of_nat 0 < limit)); [|lia].
           f_equal. lia.
        -- rewrite (IHr k r Hk). unfold nth_result.
           repeat case_decide; try lia; f_equal; lia.
      * rewrite IHs. do 2 f_equal. lia.
    + rewrite (rateLimit_refuse id limit t store _ He Ht); [|simpl; lia]. simpl.
      assert (Hs1 : cleanup t store !! id = Some {| count := c; resetTime := R |})
        by (by apply cleanup_lookup_live).
      destruct (IH (cleanup t store) c R Hs1 Hts) as [IHr IHs].
      destruct (rateLimit_calls id limit ts (cleanup t store)) as [rs store2].
      simpl in *. split.
      * intros [|k] r Hk; simpl in Hk.
        -- inversion Hk; subst. unfold nth_result.
           destruct (decide (c + Z.of_nat 0 < limit)); [lia | done].
        -- rewrite (IHr k r Hk). unfold nth_result.
           repeat case_decide; try lia; done.
      * rewrite IHs. do 2 f_equal. lia.
Qed.

(** C1 (amended). Fixed-window counting, for a limit of at least 1.
    When [id] has no window or an expired one at [t0], the call at
    [t0] creates the window [{count = 1, resetTime = t0 + window}].
    Of the calls at [t0 :: ts], all inside that window, call number
    [k + 1] is allowed with [remaining = limit - (k + 1)] as long as
    [k + 1 <= limit]; every later call is refused with the error
    message, [resetTime = t0 + window] and no [remaining] field. So
    exactly [limit] calls are allowed, and the window's count ends at
    the smaller of the number of calls and [limit]. *)
Theorem rateLimit_fixed_window id limit t0 (ts : list Z) store (k : nat) r :
  1 <= limit →
  (∀ e, store !! id = Some e → resetTime e < t0) →
  Forall (fun t => t <= t0 + RATE_LIMIT_WINDOW) ts →
  (rateLimit_calls id limit (t0 :: ts) store).1 !! k = Some r →
  (rateLimit id limit t0 store).2 !! id =
    Some {| count := 1; resetTime := t0 + RATE_LIMIT_WINDOW |}
  ∧ (Z.of_nat k < limit →
     success r = true
     ∧ remaining r = Some (limit - (Z.of_nat k + 1))
     ∧ result_resetTime r = None)
  ∧ (limit <= Z.of_nat k →
     success r = false
     ∧ remaining r = None
     ∧ error r = Some "Rate limit exceeded"%string
     ∧ result_resetTime r = Some (t0 + RATE_LIMIT_WINDOW))
  ∧ (rateLimit_calls id limit (t0 :: ts) store).2 !! id =
      Some {| count := Z.min (1 + Z.of_nat (length ts)) limit;
              resetTime := t0 + RATE_LIMIT_WINDOW |}.
Proof.
  intros Hlimit Hexp Hts. simpl.
  rewrite (rateLimit_new_window id limit t0 store Hexp). simpl.
  set (store1 := <[id := _]> (cleanup t0 store)).
  assert (Hs1 : store1 !! id =
                Some {| count := 1; resetTime := t0 + RATE_LIMIT_WINDOW |})
    by apply lookup_insert_eq.
  destruct (rateLimit_calls_live id limit ts store1 1 _ Hs1 Hts) as [Hr Hs].
  destruct (rateLimit_calls id limit ts store1) as [rs store2]. simpl in *.
  intros Hk. split; [done|].
  assert (Hend : store2 !! id =
                 Some {| count := Z.min (1 + Z.of_nat (length ts)) limit;
                         resetTime := t0 + RATE_LIMIT_WINDOW |})
    by (rewrite Hs; do 2 f_equal; lia).
  destruct k as [|k]; simpl in Hk.
  - inversion Hk; subst r. simpl.
    split; [intros _; repeat split; do 2 f_equal; lia|].
    split; [intros ?; lia | done].
  - rewrite (Hr k r Hk). unfold nth_result.
    destruct (decide (1 + Z.of_nat k < limit)); simpl.
    + split; [intros _; repeat split; do 2 f_equal; lia|].
      split; [intros ?; lia | done].
    + split; [intros ?; lia|]. by split.
Qed.

(** C6 (amended). A window whose reset time is strictly before [now]
    is replaced, whatever its count: the call is allowed with
    [remaining = limit - 1] and the store holds a fresh window with
    count 1 for the identifier. *)
Theorem rateLimit_expired_window_replaced id limit now store e :
  store !! id = Some e →
  resetTime e < now →
  success (rateLimit id limit now store).1 = true
  ∧ remaining (rateLimit id limit now store).1 = Some (limit - 1)
  ∧ (rateLimit id limit now store).2 !! id =
      Some {| count := 1; resetTime := now + RATE_LIMIT_WINDOW |}.
Proof.
  intros He Hexp. rewrite rateLimit_new_window.
  - simpl. by rewrite lookup_insert_eq.
  - intros e' He'. congruence.
Qed.

(** C10. A call that meets a live window whose count has reached the
    limit fails and leaves the identifier's entry as it was; the same
    holds for any number of further calls inside the window. *)
Theorem rateLimit_rejected_keeps_entry id limit now (ts : list Z) store e :
  store !! id = Some e →
  limit <= count e →
  now <= resetTime e →
  Forall (fun t => t <= resetTime e) ts →
  success (rateLimit id limit now store).1 = false
  ∧ (rateLimit id limit now store).2 !! id = Some e
  ∧ Forall (fun r => success r = false) (rateLimit_calls id limit ts store).1
  ∧ (rateLimit_calls id limit ts store).2 !! id = Some e.
Proof.
  intros He Hfull Hnow Hts.
  rewrite (rateLimit_refuse id limit now store e He Hnow Hfull). simpl.
  split; [done|]. split; [by apply cleanup_lookup_live|].
  destruct e as [c R]. simpl in *.
  destruct (rateLimit_calls_live id limit ts store c R He Hts) as [Hr Hs].
  split.
  - apply Forall_lookup. intros k r Hk. rewrite (Hr k r Hk).
    unfold nth_result. destruct (decide (c + Z.of_nat k < limit)); [lia | done].
  - rewrite Hs. do 2 f_equal. lia.
Qed.

(** Three calls with limit 2: the third is refused and the count
    stays at 2. *)
Lemma rateLimit_fixed_window_witness :
  (rateLimit "203.0.113.7" 2 1000 ∅).2 !! "203.0.113.7"%string =
    Some {| count := 1; resetTime := 901000 |}
  ∧ (rateLimit_calls "203.0.113.7" 2 [1000; 1500; 2000] ∅).1 !! 2%nat =
      Some (rejected 901000)
  ∧ (rateLimit_calls "203.0.113.7" 2 [1000; 1500; 2000] ∅).2
      !! "203.0.113.7"%string = Some {| count := 2; resetTime := 901000 |}.
Proof.
  assert (Hk : (rateLimit_calls "203.0.113.7" 2 [1000; 1500; 2000] ∅).1
                 !! 2%nat = Some (rejected 901000)) by (vm_compute; reflexivity).
  destruct (rateLimit_fixed_window "203.0.113.7" 2 1000 [1500; 2000] ∅ 2
              (rejected 901000)) as (H1 & _ & _ & H4).
  - lia.
  - intros e He. by rewrite lookup_empty in He.
  - repeat constructor; unfold RATE_LIMIT_WINDOW; lia.
  - exact Hk.
  - split; [exact H1|]. split; [exact Hk | exact H4].
Defined.

(** C1 as stated fails: with limit 1 the second call in the window is
    refused with no [remaining] field at all, not with [remaining = 0];
    with limit 0 the first call, which is call number [limit + 1], is
    allowed. *)
Lemma rateLimit_fixed_window_counterexample :
  (let store1 := (rateLimit "203.0.113.7" 1 1000 ∅).2 in
   let r2 := (rateLimit "203.0.113.7" 1 1001 store1).1 in
   success r2 = false ∧ remaining r2 = None ∧ remaining r2 ≠ Some 0)
  ∧ success (rateLimit "203.0.113.7" 0 1000 ∅).1 = true.
Proof. vm_compute. repeat split; discriminate. Qed.

Lemma rateLimit_expired_window_replaced_witness :
  let store := {[ "203.0.113.7"%string := {| count := 100; resetTime := 5000 |} ]} in
  success (rateLimit "203.0.113.7" 100 5001 store).1 = true
  ∧ remaining (rateLimit "203.0.113.7" 100 5001 store).1 = Some 99
  ∧ (rateLimit "203.0.113.7" 100 5001 store).2 !! "203.0.113.7"%string =
      Some {| count := 1; resetTime := 905001 |}.
Proof.
  intros store.
  apply (rateLimit_expired_window_replaced "203.0.113.7" 100 5001 store
           {| count := 100; resetTime := 5000 |}).
  - reflexivity.
  - simpl. lia.
Defined.

(** C6 as stated fails at the instant [windowStart + windowLength]
    itself: the window opened at 1000 is still in force at
    [1000 + RATE_LIMIT_WINDOW], so with limit 1 the call is refused
    and the old entry stays. *)
Lemma rateLimit_expired_window_counterexample :
  let store1 := (rateLimit "203.0.113.7" 1 1000 ∅).2 in
  let now := 1000 + RATE_LIMIT_WINDOW in
  store1 !! "203.0.113.7"%string = Some {| count := 1; resetTime := now |}
  ∧ success (rateLimit "203.0.113.7" 1 now store1).1 = false
  ∧ (rateLimit "203.0.113.7" 1 now store1).2 !! "203.0.113.7"%string =
      Some {| count := 1; resetTime := now |}.
Proof. vm_compute. repeat split. Qed.

Lemma rateLimit_rejected_keeps_entry_witness :
  let e := {| count := 100; resetTime := 5000 |} in
  let store := {[ "203.0.113.7"%string := e ]} in
  success (rateLimit "203.0.113.7" 100 4000 store).1 = false
  ∧ (rateLimit "203.0.113.7" 100 4000 store).2 !! "203.0.113.7"%string = Some e
  ∧ Forall (fun r => success r = false)
      (rateLimit_calls "203.0.113.7" 100 [4100; 5000] store).1
  ∧ (rateLimit_calls "203.0.113.7" 100 [4100; 5000] store).2
      !! "203.0.113.7"%string = Some e.
Proof.
  intros e store.
  apply (rateLimit_rejected_keeps_entry "203.0.113.7" 100 4000 [4100; 5000]
           store e).
  - reflexivity.
  - simpl. lia.
  - simpl. lia.
  - repeat constructor; simpl; lia.
Defined.


(** The rate-limiting block of the middleware is [rateLimit] on the key
    ["api:" + clientIP] with the default limit: it returns the 429
    response exactly when [rateLimit] fails, and leaves the same store. *)
Lemma api_rate_limit_rateLimit clientIP now store :
  Middleware.api_rate_limit clientIP now store =
    let '(r, store') := rateLimit_default ("api:" +:+ clientIP) now store in
    (if success r then None else Some Middleware.rate_limit_response, store').
Proof.
  unfold Middleware.api_rate_limit, rateLimit_default, rateLimit.
  destruct (cleanup now store !! _) as [e|]; [|done].
  by destruct (decide (RATE_LIMIT_MAX_REQUESTS <= count e)).
Qed.

End RateLimiter.

(** ** Client identity *)

Section ClientIdentity.
Import Security.

Implicit Types (request : AnyRequest) (v : option string).

Lemma truthy_Some_ne v : JS.truthy v = true ↔ ∃ s, v = Some s ∧ s ≠ ""%string.
Proof.
  split.
  - destruct v as [[|c s]|]; simpl; try discriminate. intros _. by eexists.
  - intros (s & -> & Hs). by destruct s.
Qed.

(** A truthy forwarded-for header decides: the answer is its first
    comma-separated entry, trimmed. *)
Lemma getClientIP_forwarded request f :
  getHeader (request_headers request) "x-forwarded-for" = Some f →
  f ≠ ""%string →
  getClientIP request = JS.trim (JS.split_first "," f).
Proof.
  intros Hf Hne. unfold getClientIP. rewrite Hf. by destruct f.
Qed.

(** Otherwise a truthy real-IP header decides. *)
Lemma getClientIP_realIP request r :
  JS.truthy (getHeader (request_headers request) "x-forwarded-for") = false →
  getHeader (request_headers request) "x-real-ip" = Some r →
  r ≠ ""%string →
  getClientIP request = r.
Proof.
  intros Hf Hr Hne. unfold getClientIP. rewrite Hr.
  destruct (getHeader _ "x-forwarded-for") as [[|c f]|]; try discriminate;
    by destruct r.
Qed.

(** Otherwise the transport address decides, and ["unknown"] when there
    is none. *)
Lemma getClientIP_transport request :
  JS.truthy (getHeader (request_headers request) "x-forwarded-for") = false →
  JS.truthy (getHeader (request_headers request) "x-real-ip") = false →
  getClientIP request =
    match ip request, remoteAddress request with
    | Some (String _ _ as a), _ => a
    | _, Some (String _ _ as a) => a
    | _, _ => "unknown"%string
    end.
Proof.
  intros Hf Hr. unfold getClientIP.
  destruct (getHeader _ "x-forwarded-for") as [[|c f]|]; try discriminate;
    destruct (getHeader _ "x-real-ip") as [[|d r]|]; try discriminate;
    by destruct (ip request) as [[|? ?]|],
                (remoteAddress request) as [[|? ?]|].
Qed.

(** Without a truthy forwarded-for header the identity is never empty. *)
Lemma getClientIP_nonempty request :
  JS.truthy (getHeader (request_headers request) "x-forwarded-for") = false →
  getClientIP request ≠ ""%string.
Proof.
  intros Hf.
  destruct (JS.truthy (getHeader (request_headers request) "x-real-ip")) eqn:Hr.
  - apply truthy_Some_ne in Hr as (r & Hr & Hne).
    by rewrite (getClientIP_realIP request r Hf Hr Hne).
  - rewrite (getClientIP_transport request Hf Hr).
    by destruct (ip request) as [[|? ?]|],
                (remoteAddress request) as [[|? ?]|].
Qed.

(** C7: the identity should never be empty, but a forwarded-for header
    whose first comma-separated entry is blank, as in [,10.0.0.1], makes
    [getClientIP] return the empty string, although the request has a
    transport address. *)
Theorem getClientIP_blank_first_entry :
  getClientIP
    {| headers := Some (HeadersObject {[ "x-forwarded-for"%string := ",10.0.0.1"%string ]});
       header := None;
       ip := Some "198.51.100.4"%string;
       remoteAddress := None |} = ""%string.
Proof. reflexivity. Qed.

End ClientIdentity.

(** ** CSRF tokens *)

Section CsrfTokens.
Import Next Csrf.

Implicit Types (request : NextRequest) (store : gmap string StoredToken).

(** When validation answers [true]. *)
Lemma validateCSRFToken_true request presented now store :
  (validateCSRFToken request presented now store).1 = true ↔
  ∃ session stored,
    sessionToken request = Some session ∧ session ≠ ""%string
    ∧ store !! session = Some stored
    ∧ token stored = presented
    ∧ now <= expires stored.
Proof.
  unfold validateCSRFToken. split.
  - destruct (sessionToken request) as [[|c s]|] eqn:Hs; simpl; try discriminate.
    destruct (store !! String c s) as [stored|] eqn:Hst; simpl; try discriminate.
    destruct (String.eqb (token stored) presented) eqn:Htok; simpl;
      try discriminate.
    destruct (decide (expires stored < now)); simpl; try discriminate.
    intros _. exists (String c s), stored.
    apply String.eqb_eq in Htok. repeat split; try done. lia.
  - intros (session & stored & -> & Hne & -> & Htok & Hnow).
    destruct session as [|c s]; [done|].
    apply String.eqb_eq in Htok. rewrite Htok. simpl.
    destruct (decide (expires stored < now)); [lia | done].
Qed.

(** What [setCSRFToken] leaves under the session it was called for. *)
Lemma setCSRFToken_lookup session fresh now store :
  (setCSRFToken session fresh now store).2 !! session =
    Some {| token := fresh; expires := now + 24 * 60 * 60 * 1000 |}.
Proof.
  unfold setCSRFToken. simpl. apply map_lookup_filter_Some.
  split; [apply lookup_insert_eq | simpl; lia].
Qed.

(** C2 (amended). Validation answers [true] exactly when the request
    carries a non-empty session cookie, a token is stored for it, the
    stored value equals the presented one and [now <= expires]: the
    token is still accepted at the instant [expires] itself. After a
    second token with a different value is issued for the session, the
    first token no longer validates, at any time. *)
Theorem validateCSRFToken_accepts request presented now store
    session fresh1 fresh2 now1 now2 :
  ((validateCSRFToken request presented now store).1 = true ↔
   ∃ stored_for stored,
     sessionToken request = Some stored_for ∧ stored_for ≠ ""%string
     ∧ store !! stored_for = Some stored
     ∧ token stored = presented
     ∧ now <= expires stored)
  ∧ (sessionToken request = Some session →
     fresh1 ≠ fresh2 →
     let issued1 := setCSRFToken session fresh1 now1 store in
     let issued2 := setCSRFToken session fresh2 now2 issued1.2 in
     (validateCSRFToken request issued1.1 now issued2.2).1 = false).
Proof.
  split; [apply validateCSRFToken_true|].
  intros Hs Hne issued1 issued2.
  apply not_true_is_false. intros Hv.
  apply validateCSRFToken_true in Hv as (s & stored & Hs' & _ & Hst & Htok & _).
  rewrite Hs in Hs'. inversion Hs'; subst s.
  unfold issued2 in Hst. rewrite setCSRFToken_lookup in Hst.
  inversion Hst; subst stored. simpl in Htok. congruence.
Qed.

Lemma validateCSRFToken_accepts_witness :
  let request :=
    Samples.request_to "/api/upload" "POST" ∅ {[ "next-auth.session-token"%string := "sess-1"%string ]} in
  let issued1 := setCSRFToken "sess-1" "tok-A" 1000 ∅ in
  let issued2 := setCSRFToken "sess-1" "tok-B" 2000 issued1.2 in
  (validateCSRFToken request "tok-A" 1500 issued1.2).1 = true
  ∧ (validateCSRFToken request "tok-A" 2500 issued2.2).1 = false.
Proof.
  intros request issued1 issued2.
  destruct (validateCSRFToken_accepts request "tok-A" 2500 ∅
              "sess-1" "tok-A" "tok-B" 1000 2000) as [_ Hreissue].
  split; [vm_compute; reflexivity|].
  apply Hreissue; [reflexivity | discriminate].
Defined.

(** C2 as stated fails at the expiry instant: a token issued at time 0
    expires at 86400000, and presenting it at exactly that time, when
    [now < expires] no longer holds, still validates. *)
Lemma validateCSRFToken_counterexample :
  let request :=
    Samples.request_to "/api/upload" "POST" ∅ {[ "next-auth.session-token"%string := "sess-1"%string ]} in
  let store := (setCSRFToken "sess-1" "tok-A" 0 ∅).2 in
  store !! "sess-1"%string = Some {| token := "tok-A"; expires := 86400000 |}
  ∧ ¬ (86400000 < 86400000)
  ∧ (validateCSRFToken request "tok-A" 86400000 store).1 = true.
Proof. vm_compute. repeat split. intros H; discriminate H. Qed.

End CsrfTokens.

(** ** The CSRF gate *)

Section CsrfGate.
Import Next Csrf.

Context {AppState : Type}.
Variable handler : NextRequest → AppState → NextResponse * AppState.

Implicit Types (request : NextRequest) (store : gmap string StoredToken).
Implicit Types (app : AppState).

(** C8 (amended). The gate lets [GET] through and nothing else: a
    [GET] request goes to the handler untouched. For any other method
    the handler does not run (the application state is unchanged) and
    the answer is HTTP 403 with body
    [{success: false, error: "CSRF token missing"}] when the
    [x-csrf-token] header is absent or empty, and HTTP 403 with body
    [{success: false, error: "Invalid CSRF token"}] when the presented
    token fails validation. *)
Theorem withCSRFProtection_gate request now app store :
  (method request = "GET"%string →
   withCSRFProtection handler request now app store =
     ((handler request app).1, (handler request app).2, store))
  ∧ (method request ≠ "GET"%string →
     JS.truthy (headers request !! "x-csrf-token"%string) = false →
     let out := withCSRFProtection handler request now app store in
     status out.1.1 = 403
     ∧ body out.1.1 = Some [("success"%string, JBool false);
                            ("error"%string, JString "CSRF token missing")]
     ∧ out.1.2 = app
     ∧ out.2 = store)
  ∧ (method request ≠ "GET"%string →
     ∀ presented,
       headers request !! "x-csrf-token"%string = Some presented →
       presented ≠ ""%string →
       (validateCSRFToken request presented now store).1 = false →
       let out := withCSRFProtection handler request now app store in
       status out.1.1 = 403
       ∧ body out.1.1 = Some [("success"%string, JBool false);
                              ("error"%string, JString "Invalid CSRF token")]
       ∧ out.1.2 = app).
Proof.
  unfold withCSRFProtection. split; [|split].
  - intros ->. simpl. by destruct (handler request app).
  - intros Hmethod Hmissing. apply String.eqb_neq in Hmethod. rewrite Hmethod.
    by destruct (headers request !! "x-csrf-token"%string) as [[|c s]|].
  - intros Hmethod presented Hheader Hne Hinvalid.
    apply String.eqb_neq in Hmethod. rewrite Hmethod, Hheader.
    destruct presented as [|c s]; [done|].
    destruct (validateCSRFToken _ _ _ _) as [ok store']. simpl in *.
    by subst ok.
Qed.

End CsrfGate.

(** A [POST] without the token header, and a [PUT] whose token does not
    match the one stored for the session: both are answered 403 and the
    handler has not run. *)
Lemma withCSRFProtection_gate_witness :
  let session := {[ "next-auth.session-token"%string := "sess-1"%string ]} in
  let store := (Csrf.setCSRFToken "sess-1" "tok-A" 1000 ∅).2 in
  let post := Samples.request_to "/api/upload" "POST" ∅ session in
  let put :=
    Samples.request_to "/api/upload" "PUT"
      {[ "x-csrf-token"%string := "tok-B"%string ]} session in
  let out1 := Csrf.withCSRFProtection Samples.counting_handler post 2000 0%nat store in
  let out2 := Csrf.withCSRFProtection Samples.counting_handler put 2000 0%nat store in
  (Next.status out1.1.1 = 403 ∧ out1.1.2 = 0%nat)
  ∧ (Next.status out2.1.1 = 403 ∧ out2.1.2 = 0%nat).
Proof.
  intros session store post put out1 out2.
  destruct (withCSRFProtection_gate Samples.counting_handler post 2000 0%nat store)
    as (_ & Hmissing & _).
  destruct (withCSRFProtection_gate Samples.counting_handler put 2000 0%nat store)
    as (_ & _ & Hinvalid).
  split.
  - destruct Hmissing as (Hs & _ & Ha & _); [discriminate | reflexivity |].
    by split.
  - destruct (Hinvalid ltac:(discriminate) "tok-B"%string) as (Hs & _ & Ha);
      [reflexivity | discriminate | vm_compute; reflexivity |].
    by split.
Defined.

(** C8 as stated fails for the safe methods other than [GET]: a [HEAD]
    request without a token is answered 403 and the handler does not
    run, whereas a [GET] request reaches the handler. *)
Lemma withCSRFProtection_gate_counterexample :
  let head := Samples.request_to "/api/upload" "HEAD" ∅ ∅ in
  let get := Samples.request_to "/api/upload" "GET" ∅ ∅ in
  Csrf.withCSRFProtection Samples.counting_handler head 2000 0%nat ∅ =
    (Next.json (Next.failure "CSRF token missing") 403, 0%nat, ∅)
  ∧ Csrf.withCSRFProtection Samples.counting_handler get 2000 0%nat ∅ =
      (Next.json [("success"%string, Next.JBool true)] 200, 1%nat, ∅).
Proof. split; reflexivity. Qed.

(** ** The middleware *)

Section MiddlewareGate.
Import Next Middleware.

Variable getToken : NextRequest → option JWT.
Variable intlMiddleware : NextRequest → NextResponse.
Variable Object_entries : gmap string string → list (string * string).

Implicit Types (request : NextRequest) (store : gmap string Security.RateEntry).

(** An admin path is not an API path. *)
Lemma admin_not_api (path : string) :
  JS.startsWith path "/admin" = true → JS.startsWith path "/api" = false.
Proof.
  unfold JS.startsWith.
  destruct path as [|c1 [|c2 [|c3 path]]]; cbn [String.prefix]; try done.
  - by destruct (ascii_dec "/" c1).
  - destruct (ascii_dec "/" c1); [|done]. by destruct (ascii_dec "a" c2).
  - destruct (ascii_dec "/" c1); [|done].
    destruct (ascii_dec "a" c2); [|done].
    destruct (ascii_dec "d" c3) as [<-|]; [|done].
    intros _. by destruct (ascii_dec "p" "d").
Qed.

(** When [expired] fires. *)
Lemma expired_true token now :
  expired token now = true ↔
  ∃ seconds, exp token = ExpNumber seconds ∧ seconds ≠ 0 ∧ seconds * 1000 < now.
Proof.
  unfold expired. split.
  - destruct (exp token) as [|seconds|]; try discriminate.
    intros [Hz Hlt]%andb_prop. exists seconds.
    apply negb_true_iff, Z.eqb_neq in Hz. apply Z.ltb_lt in Hlt. done.
  - intros (seconds & -> & Hz & Hlt).
    apply andb_true_intro. split.
    + by apply negb_true_iff, Z.eqb_neq.
    + by apply Z.ltb_lt.
Qed.

(** On an admin path the middleware is the authorization block. *)
Lemma middleware_admin request now store :
  JS.startsWith (pathname request) "/admin" = true →
  middleware getToken intlMiddleware Object_entries request now store =
    (if String.eqb (pathname request) "/admin/login"
     then response_with_headers
     else match admin_auth getToken request now with
          | Some r => r
          | None => response_with_headers
          end,
     store).
Proof.
  intros Hadmin. unfold middleware.
  rewrite Hadmin, (admin_not_api _ Hadmin). simpl.
  destruct (String.eqb (pathname request) "/admin/login"); simpl; [done|].
  by destruct (admin_auth getToken request now).
Qed.

(** C3 (amended). For a path that starts with [/admin]: the login
    route is forwarded whatever the credential; any other route is
    redirected to [/admin/login] with [callbackUrl] set to the requested
    path when [getToken] finds no credential, redirected with
    [error=session_expired] in addition when the credential has a
    non-zero numeric [exp] with [exp * 1000 < now], and forwarded as
    [NextResponse.next()] with the security headers in every other
    case, in particular when [exp * 1000 = now] or when [exp] is absent. *)
Theorem middleware_admin_gate request now store :
  JS.startsWith (pathname request) "/admin" = true →
  let out := (middleware getToken intlMiddleware Object_entries request now store).1 in
  (pathname request = "/admin/login"%string → out = response_with_headers)
  ∧ (pathname request ≠ "/admin/login"%string →
     (getToken request = None →
      out = redirect {| url_base := url request;
                        url_pathname := "/admin/login";
                        searchParams :=
                          [("callbackUrl"%string, pathname request)] |})
     ∧ (∀ token seconds,
          getToken request = Some token →
          exp token = ExpNumber seconds →
          seconds ≠ 0 → seconds * 1000 < now →
          out = redirect {| url_base := url request;
                            url_pathname := "/admin/login";
                            searchParams :=
                              [("callbackUrl"%string, pathname request);
                               ("error", "session_expired")%string] |})
     ∧ (∀ token,
          getToken request = Some token →
          (∀ seconds, exp token = ExpNumber seconds →
                      seconds = 0 ∨ now <= seconds * 1000) →
          out = response_with_headers)).
Proof.
  intros Hadmin out. unfold out. rewrite (middleware_admin _ _ _ Hadmin). simpl.
  split.
  - intros Hlogin. apply String.eqb_eq in Hlogin. by rewrite Hlogin.
  - intros Hlogin. apply String.eqb_neq in Hlogin. rewrite Hlogin.
    unfold admin_auth. split; [|split].
    + by intros ->.
    + intros token seconds -> Hexp Hz Hlt.
      assert (Hx : expired token now = true)
        by (apply expired_true; eauto).
      by rewrite Hx.
    + intros token -> Hok.
      destruct (expired token now) eqn:Hx; [|done].
      apply expired_true in Hx as (seconds & Hexp & Hz & Hlt).
      destruct (Hok seconds Hexp); lia.
Qed.

(** C4 (amended). On the admin, API and static route classes the
    middleware answers with status 200 (forwarded), 429 or 307
    (redirect). The forwarded response carries each of the five security
    headers with its fixed value; the 429 and the redirect carry none
    of them. *)
Theorem middleware_security_headers request now store :
  (JS.startsWith (pathname request) "/admin"
   || JS.startsWith (pathname request) "/api"
   || JS.startsWith (pathname request) "/_next"
   || JS.startsWith (pathname request) "/uploads")%bool = true →
  let out := (middleware getToken intlMiddleware Object_entries request now store).1 in
  (status out = 200 →
   Forall (fun kv => Headers_get kv.1 (resp_headers out) = Some kv.2)
          securityHeaders)
  ∧ (status out ≠ 200 →
     (status out = 429 ∨ status out = 307)
     ∧ Forall (fun kv => Headers_get kv.1 (resp_headers out) = None)
              securityHeaders).
Proof.
  intros Hclass out.
  assert (Hout : out = response_with_headers ∨ out = rate_limit_response
                 ∨ ∃ target, out = redirect target).
  { unfold out, middleware. rewrite Hclass.
    destruct (_ && _)%bool.
    - rewrite api_rate_limit_rateLimit.
      destruct (Security.rateLimit_default _ _ _) as [r store'].
      destruct (Security.success r); simpl.
      + destruct (_ && _)%bool; [|by left].
        unfold admin_auth.
        destruct (getToken request) as [token|]; simpl; [|by eauto].
        destruct (expired token now); simpl; by eauto.
      + by right; left.
    - simpl. destruct (_ && _)%bool; [|by left].
      unfold admin_auth.
      destruct (getToken request) as [token|]; simpl; [|by eauto].
      destruct (expired token now); simpl; by eauto. }
  destruct Hout as [-> | [-> | [target ->]]]; simpl.
  - split; [|done]. intros _. repeat constructor.
  - split; [done|]. intros _. split; [by left|]. repeat constructor.
  - split; [done|]. intros _. split; [by right|]. repeat constructor.
Qed.

End MiddlewareGate.

(** A request for an admin page without a session is redirected to the
    login page, which itself stays reachable. *)
Lemma middleware_admin_gate_witness :
  let page := Samples.request_to "/admin/products" "GET" ∅ ∅ in
  let login := Samples.request_to "/admin/login" "GET" ∅ ∅ in
  let run :=
    Middleware.middleware (fun _ => None) (fun _ => Next.next) (fun _ => []) in
  (run page 1700000000000 ∅).1 =
    Next.redirect {| Next.url_base := "https://namngam.example/admin/products";
                     Next.url_pathname := "/admin/login";
                     Next.searchParams :=
                       [("callbackUrl", "/admin/products")]%string |}
  ∧ (run login 1700000000000 ∅).1 = Middleware.response_with_headers.
Proof.
  intros page login run. split.
  - apply (middleware_admin_gate (fun _ => None) (fun _ => Next.next)
             (fun _ => []) page 1700000000000 ∅);
      [reflexivity | discriminate | reflexivity].
  - apply (middleware_admin_gate (fun _ => None) (fun _ => Next.next)
             (fun _ => []) login 1700000000000 ∅); reflexivity.
Defined.

(** C3 as stated fails at the expiry instant and has no session context
    to show: a credential whose [exp] is 1700000000 seconds is not after
    [now = 1700000000000] milliseconds, yet the request is forwarded with
    the plain [NextResponse.next()] and no redirect. *)
Lemma middleware_admin_gate_counterexample :
  let page := Samples.request_to "/admin/products" "GET" ∅ ∅ in
  let token := {| Middleware.exp := Middleware.ExpNumber 1700000000 |} in
  let now := 1700000000000 in
  let out :=
    (Middleware.middleware (fun _ => Some token) (fun _ => Next.next)
       (fun _ => []) page now ∅).1 in
  ¬ (now < 1700000000 * 1000)
  ∧ out = Middleware.response_with_headers
  ∧ Next.status out = 200
  ∧ Next.location out = None.
Proof. vm_compute. repeat split. intros H; discriminate H. Qed.

(** A forwarded API request carries the five headers. *)
Lemma middleware_security_headers_witness :
  let request := Samples.request_to "/api/products" "GET" ∅ ∅ in
  let out :=
    (Middleware.middleware (fun _ => None) (fun _ => Next.next) (fun _ => [])
       request 1700000000000 ∅).1 in
  Forall (fun kv => Next.Headers_get kv.1 (Next.resp_headers out) = Some kv.2)
         Middleware.securityHeaders.
Proof.
  intros request out.
  apply (middleware_security_headers (fun _ => None) (fun _ => Next.next)
           (fun _ => []) request 1700000000000 ∅); reflexivity.
Defined.

(** C4 as stated fails on the denial responses: the 429 sent to a
    client that has used up its 100 requests has a content type and none
    of the security headers, and so has the redirect to the login page. *)
Lemma middleware_security_headers_counterexample :
  let request := Samples.request_to "/api/products" "GET" ∅ ∅ in
  let store : gmap string Security.RateEntry :=
    {[ "api:203.0.113.7"%string :=
         {| Security.count := 100; Security.resetTime := 1700000500000 |} ]} in
  let run :=
    Middleware.middleware (fun _ => None) (fun _ => Next.next) (fun _ => []) in
  let limited := (run request 1700000000000 store).1 in
  let redirected :=
    (run (Samples.request_to "/admin/products" "GET" ∅ ∅) 1700000000000 ∅).1 in
  (Next.status limited = 429
   ∧ Next.body limited = Some (Next.failure "Rate limit exceeded")
   ∧ Next.Headers_get "X-Frame-Options" (Next.resp_headers limited) = None
   ∧ Next.Headers_get "X-Content-Type-Options" (Next.resp_headers limited) = None)
  ∧ (Next.status redirected = 307
     ∧ Next.Headers_get "X-Frame-Options" (Next.resp_headers redirected) = None).
Proof. vm_compute. repeat split. Qed.

(** ** Configuration validation *)

Section Configuration.
Import EnvValidator.

Variable parse_URL : string → option URLParts.

Implicit Types (env : gmap string string) (l : list string).

Lemma push_if_app (c : bool) (m : string) l :
  push_if c m l = l ++ (if c then [m] else []).
Proof. destruct c; simpl; [done | by rewrite app_nil_r]. Qed.

(** Case analysis on one configuration variable: absent, empty, or a
    non-empty text, which the parser accepts or not. *)
Ltac case_var env name :=
  destruct (env !! name%string) as [[|? ?]|];
  try match goal with
    | |- context [parse_URL ?t] => destruct (parse_URL t)
    end.

(** The errors of the report are the blocks' messages in order. *)
Lemma validate_errors env :
  errors (validateEnvironmentVariables parse_URL env) =
    Security.missing "Missing required environment variable: " required env
    ++ database_errors parse_URL env
    ++ base_url_errors parse_URL env
    ++ secret_errors env
    ++ environment_tag_errors env.
Proof.
  unfold validateEnvironmentVariables, database_errors, base_url_errors,
    secret_errors, environment_tag_errors.
  cbn [errors].
  generalize (Security.missing "Missing required environment variable: "
                required env).
  intros l.
  case_var env "DATABASE_URL"; case_var env "NEXTAUTH_URL";
    case_var env "NEXTAUTH_SECRET"; case_var env "NODE_ENV";
    rewrite ?push_if_app; rewrite <- ?app_assoc, ?app_nil_r; reflexivity.
Qed.

Lemma validate_warnings env :
  warnings (validateEnvironmentVariables parse_URL env) =
    Security.missing "Missing recommended environment variable: " recommended env
    ++ database_warnings parse_URL env.
Proof.
  unfold validateEnvironmentVariables, database_warnings.
  cbn [warnings].
  case_var env "DATABASE_URL"; rewrite ?push_if_app, ?app_nil_r; reflexivity.
Qed.

Lemma validate_valid env :
  valid (validateEnvironmentVariables parse_URL env) =
    bool_decide (errors (validateEnvironmentVariables parse_URL env) = []).
Proof. reflexivity. Qed.

Lemma missing_elem (prefix : string) (names : list string) env name :
  name ∈ names →
  JS.truthy (env !! name) = false →
  prefix +:+ name ∈ Security.missing prefix names env.
Proof.
  intros Hin Hfalsy. unfold Security.missing.
  apply list_elem_of_In, in_flat_map. exists name.
  split; [by apply list_elem_of_In|]. rewrite Hfalsy. by left.
Qed.

Lemma missing_nil (prefix : string) (names : list string) env :
  Forall (fun name => JS.truthy (env !! name) = true) names →
  Security.missing prefix names env = [].
Proof.
  unfold Security.missing. induction 1 as [|name names Hname _ IH]; [done|].
  simpl. by rewrite Hname, IH.
Qed.

(** One error is enough to make the report invalid. *)
Lemma error_invalid env (message : string) :
  message ∈ errors (validateEnvironmentVariables parse_URL env) →
  valid (validateEnvironmentVariables parse_URL env) = false.
Proof.
  intros Hin. rewrite validate_valid. apply bool_decide_eq_false.
  intros Hnil. rewrite Hnil in Hin. by apply not_elem_of_nil in Hin.
Qed.

(** Membership in the errors of the report, block by block. *)
Lemma elem_of_errors env (message : string) :
  message ∈ errors (validateEnvironmentVariables parse_URL env) ↔
  message ∈ Security.missing "Missing required environment variable: "
              required env
  ∨ message ∈ database_errors parse_URL env
  ∨ message ∈ base_url_errors parse_URL env
  ∨ message ∈ secret_errors env
  ∨ message ∈ environment_tag_errors env.
Proof. by rewrite validate_errors, !elem_of_app. Qed.

Lemma secret_error_short env (secret : string) :
  env !! "NEXTAUTH_SECRET"%string = Some secret →
  (String.length secret < 32)%nat →
  ∃ message, message ∈ errors (validateEnvironmentVariables parse_URL env).
Proof.
  intros Hsecret Hshort. destruct secret as [|c secret].
  - exists ("Missing required environment variable: " +:+ "NEXTAUTH_SECRET")%string.
    apply elem_of_errors. left.
    apply (missing_elem _ required env "NEXTAUTH_SECRET").
    + unfold required. set_solver.
    + by rewrite Hsecret.
  - exists "NEXTAUTH_SECRET must be at least 32 characters long"%string.
    apply elem_of_errors. do 3 right. left.
    unfold secret_errors. rewrite Hsecret.
    apply Nat.ltb_lt in Hshort. rewrite Hshort.
    apply elem_of_app. left. by apply list_elem_of_singleton.
Qed.

Lemma secret_error_weak env (secret : string) :
  env !! "NEXTAUTH_SECRET"%string = Some secret →
  is_weak secret = true →
  "NEXTAUTH_SECRET appears to be weak or default"%string
    ∈ errors (validateEnvironmentVariables parse_URL env).
Proof.
  intros Hsecret Hweak.
  apply elem_of_errors. do 3 right. left.
  unfold secret_errors. rewrite Hsecret.
  destruct secret as [|c secret]; [discriminate|]. rewrite Hweak.
  apply elem_of_app. right. by apply list_elem_of_singleton.
Qed.

Lemma database_error_scheme env (text : string) :
  env !! "DATABASE_URL"%string = Some text →
  (∀ u, parse_URL text = Some u → protocol u ≠ "postgresql:"%string) →
  ∃ message, message ∈ errors (validateEnvironmentVariables parse_URL env).
Proof.
  intros Htext Hscheme. destruct text as [|c text].
  - exists ("Missing required environment variable: " +:+ "DATABASE_URL")%string.
    apply elem_of_errors. left.
    apply (missing_elem _ required env "DATABASE_URL").
    + unfold required. set_solver.
    + by rewrite Htext.
  - destruct (parse_URL (String c text)) as [u|] eqn:Hu.
    + exists "DATABASE_URL must use postgresql:// protocol"%string.
      apply elem_of_errors. right. left.
      unfold database_errors. rewrite Htext, Hu.
      specialize (Hscheme u eq_refl). apply String.eqb_neq in Hscheme.
      rewrite Hscheme. by apply list_elem_of_singleton.
    + exists "DATABASE_URL is not a valid URL"%string.
      apply elem_of_errors. right. left.
      unfold database_errors. rewrite Htext, Hu.
      by apply list_elem_of_singleton.
Qed.

Lemma base_url_error_production env (text : string) u :
  env !! "NODE_ENV"%string = Some "production"%string →
  env !! "NEXTAUTH_URL"%string = Some text →
  text ≠ ""%string →
  parse_URL text = Some u →
  protocol u ≠ "https:"%string →
  "NEXTAUTH_URL must use https:// in production"%string
    ∈ errors (validateEnvironmentVariables parse_URL env).
Proof.
  intros Htag Htext Hne Hu Hscheme.
  apply elem_of_errors. do 2 right. left.
  unfold base_url_errors. rewrite Htext, Htag.
  destruct text as [|c text]; [done|]. rewrite Hu.
  apply String.eqb_neq in Hscheme. rewrite Hscheme.
  rewrite bool_decide_eq_true_2 by done.
  apply elem_of_app. right. by apply list_elem_of_singleton.
Qed.

(** A configuration with nothing to complain about: no error, and
    outside production no warning beyond the missing recommended
    variables. *)
Lemma validate_accepts env (db base secret tag : string) udb ubase :
  env !! "DATABASE_URL"%string = Some db → db ≠ ""%string →
  parse_URL db = Some udb → protocol udb = "postgresql:"%string →
  env !! "NEXTAUTH_URL"%string = Some base → base ≠ ""%string →
  parse_URL base = Some ubase →
  (protocol ubase = "https:"%string
   ∨ protocol ubase = "http:"%string ∧ tag ≠ "production"%string) →
  env !! "NEXTAUTH_SECRET"%string = Some secret →
  (32 <= String.length secret)%nat → is_weak secret = false →
  env !! "NODE_ENV"%string = Some tag →
  tag ∈ ["development"; "production"; "test"]%string →
  errors (validateEnvironmentVariables parse_URL env) = []
  ∧ (tag ≠ "production"%string →
     warnings (validateEnvironmentVariables parse_URL env) =
       Security.missing "Missing recommended environment variable: "
         recommended env).
Proof.
  intros Hdb Hdbne Hudb Hdbscheme Hbase Hbasene Hubase Hscheme
         Hsecret Hlong Hstrong Htag Htagok.
  assert (Htagne : tag ≠ ""%string).
  { revert Htagok. rewrite !elem_of_cons, elem_of_nil.
    intros [->|[->|[->|[]]]]; discriminate. }
  assert (Hsecretne : secret ≠ ""%string)
    by (intros ->; simpl in Hlong; lia).
  split.
  - rewrite validate_errors.
    rewrite (missing_nil _ required env).
    2:{ unfold required. repeat constructor.
        - rewrite Hdb. by destruct db.
        - rewrite Hbase. by destruct base.
        - rewrite Hsecret. by destruct secret.
        - rewrite Htag. by destruct tag. }
    unfold database_errors, base_url_errors, secret_errors,
      environment_tag_errors.
    rewrite Hdb, Hbase, Hsecret, Htag.
    destruct db as [|? ?], base as [|? ?], secret as [|? ?], tag as [|? ?];
      try done.
    rewrite Hudb, Hubase, Hdbscheme, Hstrong.
    apply Nat.ltb_ge in Hlong. rewrite Hlong.
    rewrite (bool_decide_eq_true_2 _ Htagok). simpl.
    destruct Hscheme as [-> | [-> Hnp]]; simpl.
    + by rewrite andb_false_r.
    + rewrite bool_decide_eq_false_2; [done | congruence].
  - intros Hnp. rewrite validate_warnings.
    unfold database_warnings. rewrite Hdb, Htag.
    destruct db as [|? ?]; [done|]. rewrite Hudb.
    rewrite bool_decide_eq_false_2 by congruence.
    by rewrite andb_false_r, app_nil_r.
Qed.

(** The validator of [lib/security.ts]: a short secret and a connection
    string that does not start with [postgresql://] make it fail. *)
Lemma basic_rejects_short_secret env (secret : string) :
  env !! "NEXTAUTH_SECRET"%string = Some secret →
  (String.length secret < 32)%nat →
  Security.valid (Security.validateEnvironmentVariables env) = false.
Proof.
  intros Hsecret Hshort. unfold Security.validateEnvironmentVariables.
  cbn [Security.valid]. apply bool_decide_eq_false. rewrite Hsecret.
  destruct secret as [|c secret].
  - unfold Security.missing, Security.required. simpl. rewrite Hsecret. simpl.
    destruct (env !! "DATABASE_URL"%string) as [[|? ?]|];
      destruct (env !! "NEXTAUTH_URL"%string) as [[|? ?]|]; simpl;
      try destruct (negb _); simpl; discriminate.
  - apply Nat.ltb_lt in Hshort. rewrite Hshort.
    destruct (env !! "DATABASE_URL"%string) as [[|? ?]|];
      try destruct (negb _); intros Hnil;
      repeat (apply app_eq_nil in Hnil as [Hnil ?]); discriminate.
Qed.

Lemma basic_rejects_scheme env (text : string) :
  env !! "DATABASE_URL"%string = Some text →
  JS.startsWith text "postgresql://" = false →
  Security.valid (Security.validateEnvironmentVariables env) = false.
Proof.
  intros Htext Hscheme. unfold Security.validateEnvironmentVariables.
  cbn [Security.valid]. apply bool_decide_eq_false. rewrite Htext.
  destruct text as [|c text].
  - unfold Security.missing, Security.required. simpl. rewrite Htext. simpl.
    destruct (env !! "NEXTAUTH_SECRET"%string) as [[|? ?]|];
      try destruct (_ <? _)%nat; intros Hnil;
      repeat (apply app_eq_nil in Hnil as [Hnil ?]); discriminate.
  - rewrite Hscheme. simpl. intros Hnil.
    apply app_eq_nil in Hnil as [_ ?]. discriminate.
Qed.

(** The three patterns, spelled out. *)
Lemma is_weak_patterns (secret : string) :
  is_weak secret =
    (JS.starts_with_any_ci placeholder_words secret
     || JS.same_char_repeated 31 secret)%bool.
Proof.
  unfold is_weak, weakPatterns. cbn [existsb].
  rewrite orb_false_r, orb_assoc. f_equal.
  unfold JS.starts_with_any_ci. symmetry.
  apply (existsb_app _ ["test"; "dev"; "example"; "default"]%string
           ["123"; "password"; "secret"]%string).
Qed.

(** A secret that starts with a placeholder word, in any letter case,
    is weak. *)
Lemma is_weak_word (secret word : string) :
  word ∈ placeholder_words →
  String.prefix word (JS.toLowerCase secret) = true →
  is_weak secret = true.
Proof.
  intros Hword Hprefix. rewrite is_weak_patterns.
  apply orb_true_intro. left. unfold JS.starts_with_any_ci.
  apply existsb_exists. exists word. split; [by apply list_elem_of_In | done].
Qed.

(** So is a secret of 32 or more copies of one code unit that is not a
    line terminator. *)
Lemma is_weak_repeated (c : ascii) (rest : string) :
  JS.all_eq c rest = true →
  (32 <= String.length (String c rest))%nat →
  JS.is_line_terminator c = false →
  is_weak (String c rest) = true.
Proof.
  intros Hall Hlen Hline. rewrite is_weak_patterns.
  apply orb_true_intro. right. cbn [JS.same_char_repeated].
  rewrite Hline, Hall. cbn [negb andb String.length] in Hlen |- *.
  apply Nat.leb_le. lia.
Qed.

Lemma includes_prefix (s w : string) :
  JS.includes s w = false → String.prefix w s = false.
Proof.
  destruct s as [|c s]; cbn [JS.includes]; [done|].
  by intros [? _]%orb_false_elim.
Qed.

(** A secret that has no placeholder word anywhere and is not one
    repeated code unit matches none of the patterns. *)
Lemma is_weak_false (secret : string) :
  (∀ word, word ∈ placeholder_words →
           JS.includes (JS.toLowerCase secret) word = false) →
  (∀ c rest, secret = String c rest → JS.all_eq c rest = false) →
  is_weak secret = false.
Proof.
  intros Hwords Hrepeat. rewrite is_weak_patterns.
  apply orb_false_intro.
  - apply not_true_is_false. unfold JS.starts_with_any_ci.
    intros (word & Hin & Hprefix)%existsb_exists.
    apply list_elem_of_In in Hin.
    by rewrite (includes_prefix _ _ (Hwords word Hin)) in Hprefix.
  - destruct secret as [|c rest]; [done|]. cbn [JS.same_char_repeated].
    rewrite (Hrepeat c rest eq_refl). by rewrite andb_false_r.
Qed.

(** The secret of the repository's test [should detect weak
    NEXTAUTH_SECRET] has its placeholder word after the first
    characters: the patterns, which are anchored at the start, do not
    match it, and the only error it gets is the one for its length. *)
Lemma is_weak_test_secret :
  is_weak "weakpassword" = false
  ∧ secret_errors {[ "NEXTAUTH_SECRET"%string := "weakpassword"%string ]} =
      ["NEXTAUTH_SECRET must be at least 32 characters long"%string].
Proof. split; reflexivity. Qed.

(** C5 (amended). The validator of [lib/env-validator.ts] returns a
    report [{valid, errors, warnings}] with [valid] true exactly when
    there is no error. It rejects a signing secret shorter than 32
    characters, a secret that starts with one of the placeholder words
    (test, dev, example, default, 123, password, secret, in any letter
    case), a secret made of 32 or more copies of one character other
    than a line terminator, and a connection string that does not parse
    as a [postgresql:] URL. A base URL that is not https is an error
    when the environment tag is [production]. A configuration with a
    [postgresql:] connection string, a known tag, an https base URL and
    a secret of 32 or more characters that has none of the placeholder
    words anywhere and is not one repeated character is accepted; so is
    the same configuration with an http base URL when the tag is not
    [production], and then the report has no warning about it either.
    Nothing is said of a secret that has a placeholder word elsewhere
    than at its start, or that repeats a line terminator. The validator
    of [lib/security.ts] rejects short secrets and connection strings
    that do not start with [postgresql://]. *)
Theorem validateEnvironmentVariables_report env :
  let report := validateEnvironmentVariables parse_URL env in
  valid report = bool_decide (errors report = [])
  ∧ (∀ secret : string,
       env !! "NEXTAUTH_SECRET"%string = Some secret →
       (String.length secret < 32)%nat →
       valid report = false
       ∧ Security.valid (Security.validateEnvironmentVariables env) = false)
  ∧ (∀ secret : string,
       env !! "NEXTAUTH_SECRET"%string = Some secret →
       (∃ word, word ∈ placeholder_words
                ∧ String.prefix word (JS.toLowerCase secret) = true)
       ∨ (∃ c rest, secret = String c rest
                    ∧ JS.all_eq c rest = true
                    ∧ (32 <= String.length secret)%nat
                    ∧ JS.is_line_terminator c = false) →
       valid report = false
       ∧ "NEXTAUTH_SECRET appears to be weak or default"%string ∈ errors report)
  ∧ (∀ text : string,
       env !! "DATABASE_URL"%string = Some text →
       (∀ u, parse_URL text = Some u → protocol u ≠ "postgresql:"%string) →
       valid report = false)
  ∧ (∀ text : string,
       env !! "DATABASE_URL"%string = Some text →
       JS.startsWith text "postgresql://" = false →
       Security.valid (Security.validateEnvironmentVariables env) = false)
  ∧ (∀ (text : string) u,
       env !! "NODE_ENV"%string = Some "production"%string →
       env !! "NEXTAUTH_URL"%string = Some text →
       text ≠ ""%string →
       parse_URL text = Some u →
       protocol u ≠ "https:"%string →
       valid report = false
       ∧ "NEXTAUTH_URL must use https:// in production"%string ∈ errors report)
  ∧ (∀ (db base secret tag : string) udb ubase,
       env !! "DATABASE_URL"%string = Some db → db ≠ ""%string →
       parse_URL db = Some udb → protocol udb = "postgresql:"%string →
       env !! "NEXTAUTH_URL"%string = Some base → base ≠ ""%string →
       parse_URL base = Some ubase →
       (protocol ubase = "https:"%string
        ∨ protocol ubase = "http:"%string ∧ tag ≠ "production"%string) →
       env !! "NEXTAUTH_SECRET"%string = Some secret →
       (32 <= String.length secret)%nat →
       (∀ word, word ∈ placeholder_words →
                JS.includes (JS.toLowerCase secret) word = false) →
       (∀ c rest, secret = String c rest → JS.all_eq c rest = false) →
       env !! "NODE_ENV"%string = Some tag →
       tag ∈ ["development"; "production"; "test"]%string →
       valid report = true
       ∧ errors report = []
       ∧ (tag ≠ "production"%string →
          warnings report =
            Security.missing "Missing recommended environment variable: "
              recommended env)).
Proof.
  intros report. unfold report. split; [apply validate_valid|].
  split.
  { intros secret Hsecret Hshort. split.
    - destruct (secret_error_short env secret Hsecret Hshort) as [m Hm].
      by apply (error_invalid env m).
    - by apply (basic_rejects_short_secret env secret). }
  split.
  { intros secret Hsecret Hpattern.
    assert (Hweak : is_weak secret = true).
    { destruct Hpattern as [(word & Hword & Hprefix)
                           | (c & rest & -> & Hall & Hlen & Hline)].
      - by apply (is_weak_word secret word).
      - by apply is_weak_repeated. }
    pose proof (secret_error_weak env secret Hsecret Hweak) as Hm.
    split; [by apply (error_invalid env _ Hm) | done]. }
  split.
  { intros text Htext Hscheme.
    destruct (database_error_scheme env text Htext Hscheme) as [m Hm].
    by apply (error_invalid env m). }
  split.
  { intros text Htext Hscheme. by apply (basic_rejects_scheme env text). }
  split.
  { intros text u Htag Htext Hne Hu Hscheme.
    pose proof (base_url_error_production env text u Htag Htext Hne Hu Hscheme)
      as Hm.
    split; [by apply (error_invalid env _ Hm) | done]. }
  intros db base secret tag udb ubase Hdb Hdbne Hudb Hdbscheme Hbase Hbasene
         Hubase Hscheme Hsecret Hlong Hwords Hrepeat Htag Htagok.
  pose proof (is_weak_false secret Hwords Hrepeat) as Hstrong.
  destruct (validate_accepts env db base secret tag udb ubase) as [Herr Hwarn];
    try done.
  split; [|done]. rewrite validate_valid, Herr. done.
Qed.

End Configuration.

(** A 16-character secret, a repeated character, a [mysql:] connection
    string and an http base URL in production are all rejected; the
    sample configuration with an http base URL under [development] is
    accepted. *)
Lemma validateEnvironmentVariables_report_witness :
  let validate := EnvValidator.validateEnvironmentVariables Samples.parse_URL in
  let https := "https://namngam.example"%string in
  let http := "http://namngam.example"%string in
  EnvValidator.valid
    (validate (Samples.env "development" https "0123456789abcdef"
                 Samples.good_db)) = false
  ∧ EnvValidator.valid
      (validate (Samples.env "development" https
                   "aaaaaaaaaaaaaaaaaaaaaaaaaaaaaaaa" Samples.good_db)) = false
  ∧ EnvValidator.valid
      (validate (Samples.env "development" https Samples.good_secret
                   "mysql://app:pw@db.namngam.example:3306/namngam")) = false
  ∧ EnvValidator.valid
      (validate (Samples.env "production" http Samples.good_secret
                   Samples.good_db)) = false
  ∧ EnvValidator.valid
      (validate (Samples.env "development" http Samples.good_secret
                   Samples.good_db)) = true.
Proof.
  intros validate https http.
  split; [|split; [|split; [|split]]].
  - destruct (validateEnvironmentVariables_report Samples.parse_URL
                (Samples.env "development" https "0123456789abcdef"
                   Samples.good_db)) as (_ & Hshort & _).
    apply (Hshort "0123456789abcdef"%string); [reflexivity | simpl; lia].
  - destruct (validateEnvironmentVariables_report Samples.parse_URL
                (Samples.env "development" https
                   "aaaaaaaaaaaaaaaaaaaaaaaaaaaaaaaa" Samples.good_db))
      as (_ & _ & Hweak & _).
    apply (Hweak "aaaaaaaaaaaaaaaaaaaaaaaaaaaaaaaa"%string); [reflexivity|].
    right. exists "a"%char, "aaaaaaaaaaaaaaaaaaaaaaaaaaaaaaa"%string.
    repeat split; first [reflexivity | simpl; lia].
  - destruct (validateEnvironmentVariables_report Samples.parse_URL
                (Samples.env "development" https Samples.good_secret
                   "mysql://app:pw@db.namngam.example:3306/namngam"))
      as (_ & _ & _ & Hdb & _).
    apply (Hdb "mysql://app:pw@db.namngam.example:3306/namngam"%string);
      [reflexivity|].
    intros u Hu. vm_compute in Hu. inversion Hu; subst u. discriminate.
  - destruct (validateEnvironmentVariables_report Samples.parse_URL
                (Samples.env "production" http Samples.good_secret
                   Samples.good_db)) as (_ & _ & _ & _ & _ & Hprod & _).
    apply (Hprod http {| EnvValidator.protocol := "http:";
                         EnvValidator.hostname := "namngam.example" |});
      [reflexivity | reflexivity | discriminate | reflexivity | discriminate].
  - destruct (validateEnvironmentVariables_report Samples.parse_URL
                (Samples.env "development" http Samples.good_secret
                   Samples.good_db)) as (_ & _ & _ & _ & _ & _ & Hok).
    apply (Hok Samples.good_db http Samples.good_secret "development"%string
             {| EnvValidator.protocol := "postgresql:";
                EnvValidator.hostname := "db.namngam.example" |}
             {| EnvValidator.protocol := "http:";
                EnvValidator.hostname := "namngam.example" |});
      try reflexivity; try discriminate.
    + right. split; [reflexivity | discriminate].
    + intros word Hword. unfold EnvValidator.placeholder_words in Hword.
      rewrite !elem_of_cons, elem_of_nil in Hword.
      destruct Hword as [->|[->|[->|[->|[->|[->|[->|[]]]]]]]]; reflexivity.
    + intros c rest [= <- <-]. reflexivity.
    + apply elem_of_cons. by left.
Defined.

(** C5 as stated fails in two places. Under [development] an http base
    URL gives no warning at all: the report is valid with empty errors
    and empty warnings. And the validator of [lib/security.ts], the one
    the middleware calls, has no warnings and no weak-pattern or https
    check: in [production] it accepts an http base URL together with a
    secret made of a repeated placeholder word. *)
Lemma validateEnvironmentVariables_counterexample :
  EnvValidator.validateEnvironmentVariables Samples.parse_URL
    (Samples.env "development" "http://namngam.example" Samples.good_secret
       Samples.good_db) =
    {| EnvValidator.valid := true;
       EnvValidator.errors := [];
       EnvValidator.warnings := [] |}
  ∧ EnvValidator.is_weak "passwordpasswordpasswordpassword" = true
  ∧ Security.validateEnvironmentVariables
      (Samples.env "production" "http://namngam.example"
         "passwordpasswordpasswordpassword" Samples.good_db) =
      {| Security.valid := true; Security.errors := [] |}.
Proof. vm_compute. repeat split. Qed.


(** ** More on the rate limiter *)

Section RateLimiterFrame.
Import Security.

Implicit Types (store : gmap string RateEntry) (e : RateEntry).
Implicit Types (id other : string) (limit now : Z).

(** X1. A call for one identifier leaves the entry of every other
    identifier as it was, except that an expired entry is deleted. *)
Theorem rateLimit_other_identifier id other limit now store :
  other ≠ id →
  (rateLimit id limit now store).2 !! other =
    match store !! other with
    | Some e => if decide (resetTime e < now) then None else Some e
    | None => None
    end.
Proof.
  intros Hne. rewrite <- cleanup_lookup. unfold rateLimit.
  destruct (cleanup now store !! id) as [e|]; simpl.
  - destruct (decide (limit <= count e)); simpl; [done|].
    by rewrite lookup_insert_ne.
  - by rewrite lookup_insert_ne.
Qed.

Lemma rateLimit_other_identifier_witness :
  let store : gmap string RateEntry :=
    {[ "198.51.100.4"%string := {| count := 7; resetTime := 5000 |} ]} in
  (rateLimit "203.0.113.7" 100 4000 store).2 !! "198.51.100.4"%string =
    Some {| count := 7; resetTime := 5000 |}
  ∧ (rateLimit "203.0.113.7" 100 6000 store).2 !! "198.51.100.4"%string = None.
Proof.
  intros store. split.
  - by rewrite (rateLimit_other_identifier "203.0.113.7" "198.51.100.4" 100 4000
                  store).
  - by rewrite (rateLimit_other_identifier "203.0.113.7" "198.51.100.4" 100 6000
                  store).
Defined.

(** X2. After a call at [now] the store holds no expired entry: every
    entry it keeps or creates has [now <= resetTime]. *)
Theorem rateLimit_purges_expired id limit now store (key : string) e :
  (rateLimit id limit now store).2 !! key = Some e →
  now <= resetTime e.
Proof.
  assert (Hclean : ∀ k e', cleanup now store !! k = Some e' → now <= resetTime e').
  { intros k e'. rewrite cleanup_lookup.
    destruct (store !! k) as [e0|]; [|done].
    destruct (decide (resetTime e0 < now)); [done|].
    intros [= <-]. lia. }
  unfold rateLimit.
  destruct (cleanup now store !! id) as [current|] eqn:Hid; simpl.
  - destruct (decide (limit <= count current)); simpl; [apply Hclean|].
    destruct (decide (key = id)) as [->|Hne].
    + rewrite lookup_insert_eq. intros [= <-]. simpl. by apply (Hclean id).
    + rewrite lookup_insert_ne by done. apply Hclean.
  - destruct (decide (key = id)) as [->|Hne].
    + rewrite lookup_insert_eq. intros [= <-]. simpl.
      unfold RATE_LIMIT_WINDOW. lia.
    + rewrite lookup_insert_ne by done. apply Hclean.
Qed.

Lemma rateLimit_purges_expired_witness :
  let store : gmap string RateEntry :=
    {[ "198.51.100.4"%string := {| count := 7; resetTime := 5000 |} ]} in
  (rateLimit "203.0.113.7" 100 4000 store).2 !! "198.51.100.4"%string =
    Some {| count := 7; resetTime := 5000 |}
  ∧ 4000 <= resetTime {| count := 7; resetTime := 5000 |}.
Proof.
  intros store.
  assert (Hkept : (rateLimit "203.0.113.7" 100 4000 store).2
                    !! "198.51.100.4"%string =
                  Some {| count := 7; resetTime := 5000 |}) by reflexivity.
  split; [exact Hkept|].
  exact (rateLimit_purges_expired "203.0.113.7" 100 4000 store "198.51.100.4"
           _ Hkept).
Defined.

(** X3. For a limit of at least 1, a window whose count lies between 1
    and the limit stays so: after any call the identifier has an entry
    with [1 <= count <= limit], and an allowed call reports
    [remaining = limit - count] for that new count, a number between 0
    and [limit - 1]. *)
Theorem rateLimit_count_bounded id limit now store :
  1 <= limit →
  (∀ e, store !! id = Some e → 1 <= count e <= limit) →
  ∃ e', (rateLimit id limit now store).2 !! id = Some e'
        ∧ 1 <= count e' <= limit
        ∧ (success (rateLimit id limit now store).1 = true →
           remaining (rateLimit id limit now store).1 = Some (limit - count e')
           ∧ 0 <= limit - count e' < limit).
Proof.
  intros Hlimit Hinv. unfold rateLimit.
  destruct (cleanup now store !! id) as [current|] eqn:Hid; simpl.
  - assert (Hcur : 1 <= count current <= limit).
    { apply Hinv. rewrite cleanup_lookup in Hid.
      destruct (store !! id) as [e0|]; [|done].
      destruct (decide (resetTime e0 < now)); [done|]. by inversion Hid. }
    destruct (decide (limit <= count current)); simpl.
    + exists current. by rewrite Hid.
    + eexists. rewrite lookup_insert_eq. split; [done|]. simpl.
      split; [lia|]. intros _. split; [done | lia].
  - eexists. rewrite lookup_insert_eq. split; [done|]. simpl.
    split; [lia|]. intros _. split; [done | lia].
Qed.

Lemma rateLimit_count_bounded_witness :
  let store : gmap string RateEntry :=
    {[ "203.0.113.7"%string := {| count := 99; resetTime := 5000 |} ]} in
  ∃ e', (rateLimit "203.0.113.7" 100 4000 store).2 !! "203.0.113.7"%string = Some e'
        ∧ 1 <= count e' <= 100
        ∧ (success (rateLimit "203.0.113.7" 100 4000 store).1 = true →
           remaining (rateLimit "203.0.113.7" 100 4000 store).1 =
             Some (100 - count e')
           ∧ 0 <= 100 - count e' < 100).
Proof.
  intros store.
  apply (rateLimit_count_bounded "203.0.113.7" 100 4000 store); [lia|].
  intros e He. vm_compute in He. inversion He; subst e. simpl. lia.
Defined.

(** The calls at [t0 :: ts] when [t0] finds no live window. *)
Lemma rateLimit_calls_window id limit t0 (ts : list Z) store (k : nat) r :
  1 <= limit →
  (∀ e, store !! id = Some e → resetTime e < t0) →
  Forall (fun t => t <= t0 + RATE_LIMIT_WINDOW) ts →
  (rateLimit_calls id limit (t0 :: ts) store).1 !! k = Some r →
  r = nth_result limit 0 (t0 + RATE_LIMIT_WINDOW) k.
Proof.
  intros Hlimit Hexp Hts. simpl.
  rewrite (rateLimit_new_window id limit t0 store Hexp). simpl.
  set (store1 := <[id := _]> (cleanup t0 store)).
  assert (Hs1 : store1 !! id =
                Some {| count := 1; resetTime := t0 + RATE_LIMIT_WINDOW |})
    by apply lookup_insert_eq.
  destruct (rateLimit_calls_live id limit ts store1 1 _ Hs1 Hts) as [Hr _].
  destruct (rateLimit_calls id limit ts store1) as [rs store2]. simpl in *.
  destruct k as [|k]; simpl.
  - intros [= <-]. unfold nth_result.
    destruct (decide (0 + Z.of_nat 0 < limit)); [|lia]. f_equal; lia.
  - intros Hk. rewrite (Hr k r Hk). unfold nth_result.
    repeat case_decide; try lia; f_equal; lia.
Qed.

End RateLimiterFrame.


(** ** More on the middleware *)

Section MiddlewareRoutes.
Import Next Middleware.

Variable getToken : NextRequest → option JWT.
Variable intlMiddleware : NextRequest → NextResponse.
Variable Object_entries : gmap string string → list (string * string).

Implicit Types (request : NextRequest) (store : gmap string Security.RateEntry).

(** The first three code units decide whether two of the route
    prefixes can both match. *)
Ltac prefix_clash :=
  unfold JS.startsWith;
  let path := fresh "path" in
  intros path; destruct path as [|? [|? [|? ?]]]; cbn [String.prefix];
  repeat match goal with
    | |- context [ascii_dec ?a ?b] =>
        destruct (ascii_dec a b) as [Heq|Hne];
        [try discriminate Heq; try subst | try done]
    end;
  try done.

Lemma api_not_admin :
  ∀ path, JS.startsWith path "/api" = true → JS.startsWith path "/admin" = false.
Proof. prefix_clash. Qed.

Lemma next_not_admin :
  ∀ path, JS.startsWith path "/_next" = true → JS.startsWith path "/admin" = false.
Proof. prefix_clash. Qed.

Lemma next_not_api :
  ∀ path, JS.startsWith path "/_next" = true → JS.startsWith path "/api" = false.
Proof. prefix_clash. Qed.

Lemma uploads_not_admin :
  ∀ path, JS.startsWith path "/uploads" = true → JS.startsWith path "/admin" = false.
Proof. prefix_clash. Qed.

Lemma uploads_not_api :
  ∀ path, JS.startsWith path "/uploads" = true → JS.startsWith path "/api" = false.
Proof. prefix_clash. Qed.

Lemma prefix_trans (a b s : string) :
  String.prefix a b = true → String.prefix b s = true → String.prefix a s = true.
Proof.
  revert b s. induction a as [|x a IH]; intros b s.
  - intros _ _. by destruct s.
  - destruct b as [|y b]; cbn [String.prefix]; [done|].
    destruct (ascii_dec x y) as [<-|]; [|done]. intros Hab.
    destruct s as [|z s]; cbn [String.prefix]; [done|].
    destruct (ascii_dec x z); [|done]. by apply IH.
Qed.

Lemma settings_api path :
  JS.startsWith path "/api/public/settings" = true →
  JS.startsWith path "/api" = true.
Proof. unfold JS.startsWith. by apply prefix_trans. Qed.

(** On an API path other than the public settings the answer is that
    of the rate-limiting block, and the forwarded response when the
    block lets the request through. *)
Lemma middleware_api_route request now store :
  JS.startsWith (pathname request) "/api" = true →
  JS.startsWith (pathname request) "/api/public/settings" = false →
  middleware getToken intlMiddleware Object_entries request now store =
    (match (api_rate_limit (Security.getClientIP (as_any request)) now store).1 with
     | Some r => r
     | None => response_with_headers
     end,
     (api_rate_limit (Security.getClientIP (as_any request)) now store).2).
Proof.
  intros Hapi Hsettings. unfold middleware.
  rewrite Hapi, Hsettings, (api_not_admin _ Hapi). simpl.
  by destruct (api_rate_limit _ now store) as [[r|] store'].
Qed.

(** X4. On an API path other than the public settings, the middleware
    is [rateLimit] with the default limit on the key ["api:" + clientIP]:
    it answers 429 exactly when that call fails, forwards the request
    with the security headers otherwise, and leaves the store that the
    call leaves. *)
Theorem middleware_api request now store :
  JS.startsWith (pathname request) "/api" = true →
  JS.startsWith (pathname request) "/api/public/settings" = false →
  let limited :=
    Security.rateLimit_default
      ("api:" +:+ Security.getClientIP (as_any request)) now store in
  middleware getToken intlMiddleware Object_entries request now store =
    (if Security.success limited.1
     then response_with_headers
     else rate_limit_response,
     limited.2).
Proof.
  intros Hapi Hsettings limited.
  rewrite (middleware_api_route request now store Hapi Hsettings).
  rewrite api_rate_limit_rateLimit. fold limited.
  destruct limited as [r store']. simpl. by destruct (Security.success r).
Qed.

(** X5. The public settings API, the framework's [/_next] paths and
    the [/uploads] paths are forwarded with the security headers
    whatever the store and the credential, and the store is not
    touched. *)
Theorem middleware_unlimited_paths request now store :
  JS.startsWith (pathname request) "/api/public/settings" = true
  ∨ JS.startsWith (pathname request) "/_next" = true
  ∨ JS.startsWith (pathname request) "/uploads" = true →
  middleware getToken intlMiddleware Object_entries request now store =
    (response_with_headers, store).
Proof.
  intros [Hsettings | [Hnext | Huploads]]; unfold middleware.
  - pose proof (settings_api _ Hsettings) as Hapi.
    rewrite Hapi, Hsettings, (api_not_admin _ Hapi). reflexivity.
  - rewrite Hnext, (next_not_admin _ Hnext), (next_not_api _ Hnext).
    reflexivity.
  - rewrite Huploads, (uploads_not_admin _ Huploads),
      (uploads_not_api _ Huploads). rewrite orb_true_r. reflexivity.
Qed.

(** X6. Only a rate-limited API request changes the store: for every
    other request, admin and public pages included, the store after the
    call is the store before it. *)
Theorem middleware_store_unchanged request now store :
  (JS.startsWith (pathname request) "/api"
   && negb (JS.startsWith (pathname request) "/api/public/settings"))%bool = false →
  (middleware getToken intlMiddleware Object_entries request now store).2 = store.
Proof.
  intros Hfree. unfold middleware. rewrite Hfree. clear Hfree.
  destruct (_ || _)%bool; [|reflexivity]. cbn iota.
  destruct (_ && _)%bool; [|reflexivity].
  destruct (admin_auth getToken request now); reflexivity.
Qed.

(** What the successive requests of one client to one API path get is
    read off the results of [rateLimit_calls]. *)
Lemma middleware_calls_api request (ts : list Z) :
  JS.startsWith (pathname request) "/api" = true →
  JS.startsWith (pathname request) "/api/public/settings" = false →
  ∀ store,
    middleware_calls getToken intlMiddleware Object_entries request ts store =
      let calls :=
        Security.rateLimit_calls
          ("api:" +:+ Security.getClientIP (as_any request))
          Security.RATE_LIMIT_MAX_REQUESTS ts store in
      ((fun r => if Security.success r then response_with_headers
                 else rate_limit_response) <$> calls.1,
       calls.2).
Proof.
  intros Hapi Hsettings. induction ts as [|t ts IH]; intros store; [done|].
  cbn [middleware_calls Security.rateLimit_calls].
  rewrite (middleware_api_route request t store Hapi Hsettings).
  rewrite api_rate_limit_rateLimit. unfold Security.rateLimit_default.
  destruct (Security.rateLimit _ _ t store) as [r store1].
  cbn beta iota zeta delta [fst snd]. rewrite IH.
  destruct (Security.rateLimit_calls _ _ ts store1) as [rs store2].
  cbn beta iota zeta delta [fst snd fmap list_fmap].
  by destruct (Security.success r).
Qed.

(** X7. A client with no live window that sends requests to one API
    path at [t0] and then at times within the window gets the first 100
    forwarded with the security headers and every later one answered
    with the 429 response. *)
Theorem middleware_api_window request t0 (ts : list Z) store (k : nat) r :
  JS.startsWith (pathname request) "/api" = true →
  JS.startsWith (pathname request) "/api/public/settings" = false →
  (∀ e, store !! ("api:" +:+ Security.getClientIP (as_any request)) = Some e →
        Security.resetTime e < t0) →
  Forall (fun t => t <= t0 + Security.RATE_LIMIT_WINDOW) ts →
  (middleware_calls getToken intlMiddleware Object_entries request (t0 :: ts)
     store).1 !! k = Some r →
  ((k < 100)%nat → r = response_with_headers)
  ∧ ((100 <= k)%nat → r = rate_limit_response ∧ status r = 429).
Proof.
  intros Hapi Hsettings Hexp Hts.
  rewrite (middleware_calls_api request (t0 :: ts) Hapi Hsettings store).
  cbn zeta. cbn [fst]. rewrite list_lookup_fmap.
  destruct (_ !! k) as [rr|] eqn:Hk; [|done]. simpl. intros [= <-].
  assert (Hmax : 1 <= Security.RATE_LIMIT_MAX_REQUESTS)
    by (unfold Security.RATE_LIMIT_MAX_REQUESTS; lia).
  rewrite (rateLimit_calls_window _ _ t0 ts store k rr Hmax Hexp Hts Hk).
  unfold Security.nth_result, Security.RATE_LIMIT_MAX_REQUESTS.
  destruct (decide (0 + Z.of_nat k < 100)); simpl; split; intros; try lia; done.
Qed.

End MiddlewareRoutes.

Lemma middleware_api_witness :
  let request := Samples.request_to "/api/products" "GET" ∅ ∅ in
  Middleware.middleware (fun _ => None) (fun _ => Next.next) (fun _ => [])
    request 1700000000000 ∅ =
    (Middleware.response_with_headers,
     {[ "api:203.0.113.7"%string :=
          {| Security.count := 1; Security.resetTime := 1700000900000 |} ]}).
Proof.
  intros request.
  rewrite (middleware_api (fun _ => None) (fun _ => Next.next) (fun _ => [])
             request 1700000000000 ∅); [|reflexivity..].
  vm_compute. reflexivity.
Defined.

Lemma middleware_unlimited_paths_witness :
  let store : gmap string Security.RateEntry :=
    {[ "api:203.0.113.7"%string :=
         {| Security.count := 100; Security.resetTime := 1700000500000 |} ]} in
  Middleware.middleware (fun _ => None) (fun _ => Next.next) (fun _ => [])
    (Samples.request_to "/api/public/settings" "GET" ∅ ∅) 1700000000000 store =
    (Middleware.response_with_headers, store).
Proof.
  intros store.
  apply (middleware_unlimited_paths (fun _ => None) (fun _ => Next.next)
           (fun _ => [])).
  left. reflexivity.
Defined.

Lemma middleware_store_unchanged_witness :
  let store : gmap string Security.RateEntry :=
    {[ "api:203.0.113.7"%string :=
         {| Security.count := 3; Security.resetTime := 1700000500000 |} ]} in
  (Middleware.middleware (fun _ => None) (fun _ => Next.next) (fun _ => [])
     (Samples.request_to "/admin/products" "GET" ∅ ∅) 1700000000000 store).2 =
    store.
Proof.
  intros store.
  apply (middleware_store_unchanged (fun _ => None) (fun _ => Next.next)
           (fun _ => [])).
  reflexivity.
Defined.

(** The 101st request of one client inside the window is answered 429. *)
Lemma middleware_api_window_witness :
  let request := Samples.request_to "/api/products" "GET" ∅ ∅ in
  let responses :=
    (Middleware.middleware_calls (fun _ => None) (fun _ => Next.next)
       (fun _ => []) request (1000 :: replicate 100 2000) ∅).1 in
  responses !! 100%nat = Some Middleware.rate_limit_response
  ∧ Next.status Middleware.rate_limit_response = 429.
Proof.
  intros request responses.
  assert (Hk : responses !! 100%nat = Some Middleware.rate_limit_response)
    by (vm_compute; reflexivity).
  split; [exact Hk|].
  destruct (middleware_api_window (fun _ => None) (fun _ => Next.next)
              (fun _ => []) request 1000 (replicate 100 2000) ∅ 100
              Middleware.rate_limit_response eq_refl eq_refl)
    as [_ Hlast].
  - intros e He. by rewrite lookup_empty in He.
  - apply Forall_replicate. unfold Security.RATE_LIMIT_WINDOW. lia.
  - exact Hk.
  - exact (proj2 (Hlast ltac:(lia))).
Defined.


(** ** More on CSRF tokens *)

Section CsrfLifecycle.
Import Next Csrf.

Implicit Types (request : NextRequest) (store : gmap string StoredToken).
Implicit Types (session fresh presented : string) (now later : Z).

(** X8. Round trip: the token that [setCSRFToken] returns validates for
    a request that carries the session cookie, at any time up to 24
    hours after it was issued, and validation leaves the store as it
    is. *)
Theorem setCSRFToken_validates request session fresh now later store :
  sessionToken request = Some session →
  session ≠ ""%string →
  later <= now + 24 * 60 * 60 * 1000 →
  (setCSRFToken session fresh now store).1 = fresh
  ∧ validateCSRFToken request fresh later (setCSRFToken session fresh now store).2 =
      (true, (setCSRFToken session fresh now store).2).
Proof.
  intros Hsession Hne Hlater. split; [done|]. unfold validateCSRFToken.
  rewrite Hsession. destruct session as [|c session]; [done|].
  rewrite setCSRFToken_lookup. cbn [token expires].
  rewrite String.eqb_refl. cbn [negb].
  destruct (decide (now + 24 * 60 * 60 * 1000 < later)); [lia | done].
Qed.

Lemma setCSRFToken_validates_witness :
  let request :=
    Samples.request_to "/api/upload" "POST" ∅
      {[ "next-auth.session-token"%string := "sess-1"%string ]} in
  let issued := setCSRFToken "sess-1" "tok-A" 1000 ∅ in
  issued.1 = "tok-A"%string
  ∧ validateCSRFToken request "tok-A" 86401000 issued.2 = (true, issued.2).
Proof.
  intros request issued.
  apply (setCSRFToken_validates request "sess-1" "tok-A" 1000 86401000 ∅);
    [reflexivity | discriminate | lia].
Defined.

(** A successful validation leaves the store as it is. *)
Lemma validateCSRFToken_true_store request presented now store :
  (validateCSRFToken request presented now store).1 = true →
  (validateCSRFToken request presented now store).2 = store.
Proof.
  unfold validateCSRFToken.
  destruct (sessionToken request) as [[|c session]|]; simpl; try done.
  destruct (store !! String c session) as [stored|]; simpl; try done.
  destruct (negb _); simpl; try done.
  by destruct (decide (expires stored < now)).
Qed.

(** X9. Validation never adds or changes a stored token: a successful
    validation leaves the store as it is, every entry of the store
    after a validation was there before, and the entries of the
    sessions other than the request's are those of before. *)
Theorem validateCSRFToken_store request presented now store :
  let out := validateCSRFToken request presented now store in
  (out.1 = true → out.2 = store)
  ∧ (∀ (key : string) stored, out.2 !! key = Some stored →
                              store !! key = Some stored)
  ∧ (∀ key : string, sessionToken request ≠ Some key →
                     out.2 !! key = store !! key).
Proof.
  unfold validateCSRFToken.
  destruct (sessionToken request) as [[|c session]|]; simpl; try done.
  destruct (store !! String c session) as [stored|] eqn:Hstored; simpl;
    try done.
  destruct (negb _); simpl; try done.
  destruct (decide (expires stored < now)); simpl; try done.
  split; [done|]. split.
  - intros key stored'. by intros [_ H]%lookup_delete_Some.
  - intros key Hkey. apply lookup_delete_ne. congruence.
Qed.

(** X10. Issuing a token for one session keeps the token of every
    other session exactly when it has not expired: the expired ones are
    removed and none is added or changed. *)
Theorem setCSRFToken_other_sessions session (other : string) fresh now store
    stored :
  other ≠ session →
  (setCSRFToken session fresh now store).2 !! other = Some stored ↔
  store !! other = Some stored ∧ now <= expires stored.
Proof.
  intros Hne. unfold setCSRFToken. simpl.
  rewrite map_lookup_filter_Some, lookup_insert_ne by done. simpl.
  split; intros [? ?]; split; done || lia.
Qed.

Lemma setCSRFToken_other_sessions_witness :
  let store : gmap string StoredToken :=
    {[ "sess-2"%string := {| token := "tok-Z"; expires := 5000 |} ]} in
  (setCSRFToken "sess-1" "tok-A" 4000 store).2 !! "sess-2"%string =
    Some {| token := "tok-Z"; expires := 5000 |}
  ∧ (setCSRFToken "sess-1" "tok-A" 6000 store).2 !! "sess-2"%string = None.
Proof.
  intros store. split.
  - apply (setCSRFToken_other_sessions "sess-1" "sess-2" "tok-A" 4000 store);
      [discriminate|]. split; [reflexivity | simpl; lia].
  - destruct ((setCSRFToken "sess-1" "tok-A" 6000 store).2 !! "sess-2"%string)
      as [stored|] eqn:Hstored; [|done].
    apply (setCSRFToken_other_sessions "sess-1" "sess-2" "tok-A" 6000 store)
      in Hstored as [Hin Hlive]; [|discriminate].
    vm_compute in Hin. inversion Hin; subst stored. simpl in Hlive. lia.
Defined.

(** The token endpoint for a request that has a session cookie. *)
Lemma GET_session request session fresh now store :
  sessionToken request = Some session →
  session ≠ ""%string →
  GET request fresh now store =
    (json [("success"%string, JBool true); ("csrfToken"%string, JString fresh)]
          200,
     (setCSRFToken session fresh now store).2).
Proof.
  intros Hsession Hne. unfold GET. rewrite Hsession.
  by destruct session as [|c session].
Qed.

Section Gate.
Context {AppState : Type}.
Variable handler : NextRequest → AppState → NextResponse * AppState.

(** X11. A request with another method than [GET] whose
    [x-csrf-token] header validates reaches the handler: the answer and
    the application state are the handler's, and the token store is
    unchanged, so the token can be used again. *)
Theorem withCSRFProtection_valid request now (app : AppState) store presented :
  method request ≠ "GET"%string →
  headers request !! "x-csrf-token"%string = Some presented →
  presented ≠ ""%string →
  (validateCSRFToken request presented now store).1 = true →
  withCSRFProtection handler request now app store =
    ((handler request app).1, (handler request app).2, store).
Proof.
  intros Hmethod Hheader Hne Hvalid. unfold withCSRFProtection.
  apply String.eqb_neq in Hmethod. rewrite Hmethod, Hheader.
  destruct presented as [|c presented]; [done|].
  pose proof (validateCSRFToken_true_store request (String c presented) now
                store Hvalid) as Hsame.
  destruct (validateCSRFToken _ _ _ _) as [ok store']. simpl in *. subst ok store'.
  by destruct (handler request app).
Qed.

End Gate.

(** X12. The token endpoint answers 401 and leaves the store alone
    when the request has no session cookie. With a session cookie it
    answers 200 with [{success: true, csrfToken}] and stores the token,
    which then validates for every request of the same session up to 24
    hours later. *)
Theorem GET_token_flow request fresh now store :
  (JS.truthy (sessionToken request) = false →
   GET request fresh now store = (json (failure "Not authenticated") 401, store))
  ∧ (JS.truthy (sessionToken request) = true →
     status (GET request fresh now store).1 = 200
     ∧ body (GET request fresh now store).1 =
         Some [("success"%string, JBool true);
               ("csrfToken"%string, JString fresh)]
     ∧ ∀ post later,
         sessionToken post = sessionToken request →
         later <= now + 24 * 60 * 60 * 1000 →
         (validateCSRFToken post fresh later (GET request fresh now store).2).1 =
           true).
Proof.
  split.
  - unfold GET. by destruct (sessionToken request) as [[|c session]|].
  - intros Htruthy.
    destruct (sessionToken request) as [[|c session]|] eqn:Hsession;
      try discriminate.
    rewrite (GET_session request (String c session) fresh now store Hsession)
      by done.
    split; [done|]. split; [done|].
    intros post later Hsame Hlater. cbn [snd].
    apply validateCSRFToken_true. eexists _, _.
    split; [exact Hsame|]. split; [done|].
    split; [apply setCSRFToken_lookup|]. split; [done|]. simpl. lia.
Qed.



End CsrfLifecycle.

Lemma withCSRFProtection_valid_witness :
  let session := {[ "next-auth.session-token"%string := "sess-1"%string ]} in
  let store := (Csrf.setCSRFToken "sess-1" "tok-A" 1000 ∅).2 in
  let post :=
    Samples.request_to "/api/upload" "POST"
      {[ "x-csrf-token"%string := "tok-A"%string ]} session in
  Csrf.withCSRFProtection Samples.counting_handler post 2000 0%nat store =
    (Next.json [("success"%string, Next.JBool true)] 200, 1%nat, store).
Proof.
  intros session store post.
  apply (withCSRFProtection_valid Samples.counting_handler post 2000 0%nat store
           "tok-A"); [discriminate | reflexivity | discriminate |].
  vm_compute. reflexivity.
Defined.

Lemma GET_token_flow_witness :
  let session := {[ "next-auth.session-token"%string := "sess-1"%string ]} in
  let get := Samples.request_to "/api/upload" "GET" ∅ session in
  let post :=
    Samples.request_to "/api/upload" "POST"
      {[ "x-csrf-token"%string := "tok-A"%string ]} session in
  Csrf.GET (Samples.request_to "/api/upload" "GET" ∅ ∅) "tok-A" 1000 ∅ =
    (Next.json (Next.failure "Not authenticated") 401, ∅)
  ∧ (Csrf.validateCSRFToken post "tok-A" 2000 (Csrf.GET get "tok-A" 1000 ∅).2).1 =
      true.
Proof.
  intros session get post. split.
  - apply GET_token_flow. reflexivity.
  - destruct (GET_token_flow get "tok-A" 1000 ∅) as [_ Hflow].
    destruct (Hflow eq_refl) as (_ & _ & Hpost).
    apply (Hpost post 2000); [reflexivity | lia].
Defined.


(** ** Strings: trimming, removing and cutting *)

Section Strings.

Implicit Types (s : string) (c : ascii) (p : ascii → bool).

Lemma trimStart_head s c rest :
  JS.trimStart s = String c rest → JS.is_space c = false.
Proof.
  induction s as [|d s IH]; simpl; [done|].
  destruct (JS.is_space d) eqn:Hd; [done|]. by intros [= <- <-].
Qed.

Lemma trimStart_nonspace c rest :
  JS.is_space c = false → JS.trimStart (String c rest) = String c rest.
Proof. intros Hc. simpl. by rewrite Hc. Qed.

Lemma trimEnd_head c rest :
  JS.is_space c = false →
  ∃ rest', JS.trimEnd (String c rest) = String c rest'.
Proof.
  intros Hc. simpl. destruct (JS.trimEnd rest); rewrite ?Hc; eauto.
Qed.

Lemma trimEnd_idem s : JS.trimEnd (JS.trimEnd s) = JS.trimEnd s.
Proof.
  induction s as [|c s IH]; simpl; [done|].
  destruct (JS.trimEnd s) as [|d s'] eqn:Hs.
  - destruct (JS.is_space c) eqn:Hc; simpl; [done|]. by rewrite Hc.
  - change (JS.trimEnd (String c (String d s'))) with
      (match JS.trimEnd (String d s') with
       | EmptyString => if JS.is_space c then EmptyString else String c EmptyString
       | rest' => String c rest'
       end).
    by rewrite IH.
Qed.

(** Trimming a trimmed text changes nothing. *)
Lemma trim_idem s : JS.trim (JS.trim s) = JS.trim s.
Proof.
  unfold JS.trim. destruct (JS.trimStart s) as [|c rest] eqn:Hs; [done|].
  pose proof (trimStart_head s c rest Hs) as Hc.
  destruct (trimEnd_head c rest Hc) as [rest' Hrest]. rewrite Hrest.
  rewrite (trimStart_nonspace c rest' Hc), <- Hrest. apply trimEnd_idem.
Qed.

Lemma trim_head s c rest : JS.trim s = String c rest → JS.is_space c = false.
Proof.
  unfold JS.trim. destruct (JS.trimStart s) as [|d rest0] eqn:Hs; [done|].
  pose proof (trimStart_head s d rest0 Hs) as Hd.
  destruct (trimEnd_head d rest0 Hd) as [rest' ->]. by intros [= <- _].
Qed.

Lemma has_trimStart p s : JS.has p (JS.trimStart s) = true → JS.has p s = true.
Proof.
  induction s as [|c s IH]; simpl; [done|].
  destruct (JS.is_space c); simpl; [|done].
  intros H. rewrite (IH H). apply orb_true_r.
Qed.

Lemma has_trimEnd p s : JS.has p (JS.trimEnd s) = true → JS.has p s = true.
Proof.
  induction s as [|c s IH]; simpl; [done|].
  destruct (JS.trimEnd s) as [|d s'].
  - destruct (JS.is_space c); simpl; [done|].
    rewrite orb_false_r. intros ->. done.
  - cbn [JS.has]. intros [->|H]%orb_prop; [done|].
    rewrite (IH H). apply orb_true_r.
Qed.

Lemma has_trim p s : JS.has p (JS.trim s) = true → JS.has p s = true.
Proof. intros H. by apply has_trimStart, has_trimEnd. Qed.

Lemma has_take p (n : nat) s : JS.has p (JS.take n s) = true → JS.has p s = true.
Proof.
  revert s. induction n as [|n IH]; intros [|c s]; simpl; try done.
  intros [->|H]%orb_prop; [done|]. rewrite (IH s H). apply orb_true_r.
Qed.

Lemma has_remove p s : JS.has p (JS.remove p s) = false.
Proof.
  induction s as [|c s IH]; simpl; [done|].
  destruct (p c) eqn:Hc; simpl; [done|]. by rewrite Hc.
Qed.

Lemma remove_none p s : JS.has p s = false → JS.remove p s = s.
Proof.
  induction s as [|c s IH]; simpl; [done|].
  intros [Hc Hs]%orb_false_elim. rewrite Hc. by rewrite (IH Hs).
Qed.

Lemma string_take_length (n : nat) s : (String.length (JS.take n s) <= n)%nat.
Proof.
  revert s. induction n as [|n IH]; intros [|c s]; simpl; try lia.
  specialize (IH s). lia.
Qed.

Lemma string_take_all (n : nat) s : (String.length s <= n)%nat → JS.take n s = s.
Proof.
  revert s. induction n as [|n IH]; intros [|c s]; simpl; try done; try lia.
  intros H. rewrite IH; [done | lia].
Qed.

Lemma string_take_head (n : nat) s c rest :
  JS.take n s = String c rest → ∃ rest', s = String c rest'.
Proof. destruct n, s; simpl; try done. intros [= <- _]. eauto. Qed.

Lemma has_split_first (sep : ascii) s :
  JS.has (fun c => Ascii.eqb c sep) (JS.split_first sep s) = false.
Proof.
  induction s as [|c s IH]; simpl; [done|].
  destruct (Ascii.eqb c sep) eqn:Hc; simpl; [done|]. by rewrite Hc.
Qed.

End Strings.

(** ** More on client identity *)

Section ClientIdentityMore.
Import Security.

Implicit Types (request : AnyRequest).

(** X13. When the forwarded-for header is absent or empty the identity
    is never empty: it is the real-IP header if that is non-empty, else
    the transport address ([ip], then [connection.remoteAddress]), else
    the word [unknown]. *)
Theorem getClientIP_fallbacks request :
  JS.truthy (getHeader (request_headers request) "x-forwarded-for") = false →
  getClientIP request ≠ ""%string
  ∧ (∀ r : string,
       getHeader (request_headers request) "x-real-ip" = Some r →
       r ≠ ""%string → getClientIP request = r)
  ∧ (JS.truthy (getHeader (request_headers request) "x-real-ip") = false →
     getClientIP request =
       match ip request, remoteAddress request with
       | Some (String _ _ as a), _ => a
       | _, Some (String _ _ as a) => a
       | _, _ => "unknown"%string
       end).
Proof.
  intros Hf. split; [by apply getClientIP_nonempty|]. split.
  - intros r Hr Hne. by apply getClientIP_realIP.
  - intros Hr. by apply getClientIP_transport.
Qed.

Lemma getClientIP_fallbacks_witness :
  let request :=
    {| headers := Some (PlainObject {[ "x-real-ip"%string := "198.51.100.4"%string ]});
       header := None;
       ip := Some "203.0.113.7"%string;
       remoteAddress := None |} in
  getClientIP request ≠ ""%string ∧ getClientIP request = "198.51.100.4"%string.
Proof.
  intros request.
  destruct (getClientIP_fallbacks request) as (Hne & Hreal & _); [reflexivity|].
  split; [exact Hne|]. apply Hreal; [reflexivity | discriminate].
Defined.

(** X14. When the forwarded-for header is non-empty the identity is
    taken from it alone: it contains no comma and has no white space at
    either end. *)
Theorem getClientIP_forwarded_clean request (f : string) :
  getHeader (request_headers request) "x-forwarded-for" = Some f →
  f ≠ ""%string →
  JS.has (fun c => Ascii.eqb c ",") (getClientIP request) = false
  ∧ JS.trim (getClientIP request) = getClientIP request.
Proof.
  intros Hf Hne. rewrite (getClientIP_forwarded request f Hf Hne). split.
  - apply not_true_is_false. intros H%has_trim.
    by rewrite has_split_first in H.
  - apply trim_idem.
Qed.

Lemma getClientIP_forwarded_clean_witness :
  let request :=
    {| headers :=
         Some (HeadersObject
                 {[ "x-forwarded-for"%string := " 203.0.113.7 , 10.0.0.1"%string ]});
       header := None;
       ip := Some "198.51.100.4"%string;
       remoteAddress := None |} in
  getClientIP request = "203.0.113.7"%string
  ∧ JS.has (fun c => Ascii.eqb c ",") (getClientIP request) = false
  ∧ JS.trim (getClientIP request) = getClientIP request.
Proof.
  intros request. split; [reflexivity|].
  apply (getClientIP_forwarded_clean request " 203.0.113.7 , 10.0.0.1");
    [reflexivity | discriminate].
Defined.

End ClientIdentityMore.

(** ** Input sanitising *)

Section SanitizeInput.
Import Sanitize.

(** X15. The sanitised text never contains an angle bracket, is at
    most 1000 code units long and does not start with white space. *)
Theorem sanitizeInput_safe (input : string) :
  JS.has is_angle (sanitizeInput input) = false
  ∧ (String.length (sanitizeInput input) <= 1000)%nat
  ∧ (∀ c rest, sanitizeInput input = String c rest → JS.is_space c = false).
Proof.
  unfold sanitizeInput. split; [|split].
  - apply not_true_is_false. intros H%has_take%has_trim.
    by rewrite has_remove in H.
  - apply string_take_length.
  - intros c rest H. destruct (string_take_head _ _ _ _ H) as [rest' Hrest].
    by apply (trim_head _ _ _ Hrest).
Qed.

(** X16. A text without angle brackets, without white space at either
    end and of at most 1000 code units is returned as it is. *)
Theorem sanitizeInput_clean (input : string) :
  JS.has is_angle input = false →
  JS.trim input = input →
  (String.length input <= 1000)%nat →
  sanitizeInput input = input.
Proof.
  intros Hangle Htrim Hlen. unfold sanitizeInput.
  rewrite (remove_none _ _ Hangle), Htrim. by apply string_take_all.
Qed.

Lemma sanitizeInput_clean_witness :
  sanitizeInput "Sticky rice, 2 kg" = "Sticky rice, 2 kg"%string.
Proof.
  apply sanitizeInput_clean; [reflexivity | reflexivity | simpl; lia].
Defined.

End SanitizeInput.


(** ** Passwords *)

Section Passwords.
Import Password.

(** X17. A password is valid exactly when it has at least 8 code units
    and contains an uppercase letter, a lowercase letter, a digit and a
    symbol of the list; the report has one error per rule that fails. *)
Theorem validatePassword_rules (password : string) :
  let report := validatePassword password in
  (valid report = true ↔
   (8 <= String.length password)%nat
   ∧ JS.has is_upper password = true
   ∧ JS.has is_lower password = true
   ∧ JS.has is_digit password = true
   ∧ JS.has is_symbol password = true)
  ∧ length (errors report) =
      (Nat.b2n (Nat.ltb (String.length password) 8)
       + Nat.b2n (negb (JS.has is_upper password))
       + Nat.b2n (negb (JS.has is_lower password))
       + Nat.b2n (negb (JS.has is_digit password))
       + Nat.b2n (negb (JS.has is_symbol password)))%nat.
Proof.
  unfold validatePassword, PASSWORD_MIN_LENGTH. cbn [valid errors].
  destruct (Nat.ltb_spec (String.length password) 8) as [Hlen|Hlen];
    destruct (JS.has is_upper password), (JS.has is_lower password),
      (JS.has is_digit password), (JS.has is_symbol password);
    cbn; (split; [split; [intros H; try discriminate H; repeat split; lia
                         | intros (? & ? & ? & ? & ?); try done; lia]
                 | reflexivity]).
Qed.

End Passwords.

(** ** File uploads *)

Section FileUploads.
Import FileUpload.

(** What an accepted upload satisfies. *)
Lemma validateFileUpload_valid_inv (file : File) (maxSize : Z) :
  valid (validateFileUpload file maxSize) = true →
  size file <= maxSize
  ∧ type file ∈ ALLOWED_IMAGE_TYPES
  ∧ mimeToExt (type file) = Some (extension file).
Proof.
  unfold validateFileUpload.
  destruct (decide (maxSize < size file)); cbn [valid]; [done|].
  destruct (bool_decide (type file ∈ ALLOWED_IMAGE_TYPES)) eqn:Htype;
    cbn [negb valid]; [|done].
  apply bool_decide_eq_true in Htype.
  destruct (bool_decide (Some (extension file) = mimeToExt (type file))) eqn:Hext;
    cbn [negb valid]; [|done].
  apply bool_decide_eq_true in Hext. intros _. repeat split; try done. lia.
Qed.

(** X18. An upload is accepted exactly when its size does not exceed
    the limit, its type is one of the five allowed image types and the
    lower-cased text after the last dot of its name is the extension
    listed for that type; an accepted upload carries no error. *)
Theorem validateFileUpload_accepts (file : File) (maxSize : Z) :
  (valid (validateFileUpload file maxSize) = true ↔
   size file <= maxSize
   ∧ type file ∈ ALLOWED_IMAGE_TYPES
   ∧ mimeToExt (type file) = Some (extension file))
  ∧ (valid (validateFileUpload file maxSize) = true →
     error (validateFileUpload file maxSize) = None).
Proof.
  split; [split; [apply validateFileUpload_valid_inv|]|].
  - intros (Hsize & Htype & Hext). unfold validateFileUpload.
    destruct (decide (maxSize < size file)); [lia|].
    rewrite (bool_decide_eq_true_2 _ Htype). cbn [negb].
    rewrite bool_decide_eq_true_2 by done. done.
  - unfold validateFileUpload.
    destruct (decide (maxSize < size file)); cbn [valid error]; [done|].
    destruct (negb _); cbn [valid error]; [done|].
    by destruct (negb _).
Qed.

(** X19. Whatever the type and the size, an accepted upload has one of
    the extensions jpg, png, webp and gif; a file whose name ends in
    [.jpeg] is therefore always refused, also with the type
    [image/jpeg]. *)
Theorem validateFileUpload_extensions (file : File) (maxSize : Z) :
  (valid (validateFileUpload file maxSize) = true →
   extension file ∈ ["jpg"; "png"; "webp"; "gif"]%string)
  ∧ (extension file = "jpeg"%string →
     valid (validateFileUpload file maxSize) = false).
Proof.
  assert (Hext : valid (validateFileUpload file maxSize) = true →
                 extension file ∈ ["jpg"; "png"; "webp"; "gif"]%string).
  { intros Hvalid.
    apply (validateFileUpload_valid_inv file maxSize) in Hvalid
      as (_ & Htype & Hmime).
    unfold ALLOWED_IMAGE_TYPES in Htype.
    rewrite !elem_of_cons, elem_of_nil in Htype.
    destruct Htype as [H|[H|[H|[H|[H|[]]]]]]; rewrite H in Hmime;
      vm_compute in Hmime; inversion Hmime as [Heq];
      rewrite !elem_of_cons; auto. }
  split; [done|]. intros Hjpeg. apply not_true_is_false. intros Hvalid.
  specialize (Hext Hvalid). rewrite Hjpeg in Hext.
  rewrite !elem_of_cons, elem_of_nil in Hext.
  destruct Hext as [H|[H|[H|[H|[]]]]]; discriminate H.
Qed.

Lemma validateFileUpload_extensions_witness :
  let photo := {| name := "sticky-rice.JPEG"; size := 1024; type := "image/jpeg" |} in
  extension photo = "jpeg"%string
  ∧ valid (validateFileUpload photo MAX_FILE_SIZE) = false.
Proof.
  intros photo. split; [reflexivity|].
  apply (validateFileUpload_extensions photo MAX_FILE_SIZE). reflexivity.
Defined.

End FileUploads.

(** ** Random tokens *)

Section SecureTokens.
Import SecureToken.

Variable draw : nat → nat.
Hypothesis draw_in_range : ∀ i, (draw i < 62)%nat.

Lemma string_length_append (a b : string) :
  String.length (a +:+ b) = (String.length a + String.length b)%nat.
Proof. induction a as [|c a IH]; simpl; [done | by rewrite IH]. Qed.

Lemma has_append (p : ascii → bool) (a b : string) :
  JS.has p (a +:+ b) = (JS.has p a || JS.has p b)%bool.
Proof.
  induction a as [|c a IH]; simpl; [done|]. by rewrite IH, orb_assoc.
Qed.

(** Every position below 62 of [chars] holds a letter or a digit. *)
Lemma charAt_chars (k : nat) :
  (k < 62)%nat →
  ∃ c, JS.charAt k chars = String c EmptyString ∧ alphanumeric c = true.
Proof.
  intros Hk.
  do 62 (destruct k as [|k]; [eexists; split; reflexivity|]).
  lia.
Qed.

Lemma loop_spec (remaining : nat) :
  ∀ (i : nat) (result : string),
    String.length (loop remaining i draw result) =
      (String.length result + remaining)%nat
    ∧ JS.has (fun c => negb (alphanumeric c)) (loop remaining i draw result) =
        JS.has (fun c => negb (alphanumeric c)) result.
Proof.
  induction remaining as [|remaining IH]; intros i result; simpl.
  - split; [lia | done].
  - destruct (charAt_chars (draw i) (draw_in_range i)) as (c & Hc & Halnum).
    destruct (IH (S i) (result +:+ JS.charAt (draw i) chars)) as [Hlen Hhas].
    rewrite Hlen, Hhas, string_length_append, has_append, Hc. simpl.
    rewrite Halnum. simpl. rewrite !orb_false_r. split; [lia | done].
Qed.

(** X20. A token has exactly the requested number of code units (none
    for a negative request) and consists of ASCII letters and digits
    only. *)
Theorem generateSecureToken_shape (length : Z) :
  String.length (generateSecureToken length draw) = Z.to_nat length
  ∧ JS.has (fun c => negb (alphanumeric c)) (generateSecureToken length draw) =
      false.
Proof.
  unfold generateSecureToken.
  destruct (loop_spec (Z.to_nat length) 0 "") as [Hlen Hhas].
  by rewrite Hlen, Hhas.
Qed.

End SecureTokens.

Lemma generateSecureToken_shape_witness :
  String.length (SecureToken.generateSecureToken 32 (fun i => (7 * i) `mod` 62)%nat)
    = 32%nat
  ∧ JS.has (fun c => negb (SecureToken.alphanumeric c))
      (SecureToken.generateSecureToken 32 (fun i => (7 * i) `mod` 62)%nat) = false.
Proof.
  apply (generateSecureToken_shape (fun i => (7 * i) `mod` 62)%nat).
  intros i. apply Nat.mod_upper_bound. discriminate.
Defined.

(** ** The risk score *)

Section RiskScore.
Import SecurityMetrics.

(** X21. For counts that are not negative the risk score lies between
    0 and 100 and is the sum of the three capped contributions: the
    final cap at 100 never cuts anything. The score is 100 exactly when
    there are at least 6 failed logins, 4 suspicious activities and 2
    security violations. *)
Theorem calculateRiskScore_range (metrics : Metrics) :
  0 <= failedLogins metrics →
  0 <= suspiciousActivities metrics →
  0 <= securityViolations metrics →
  0 <= calculateRiskScore metrics <= 100
  ∧ calculateRiskScore metrics =
      Z.min (failedLogins metrics * 5) 30
      + Z.min (suspiciousActivities metrics * 10) 40
      + Z.min (securityViolations metrics * 20) 30
  ∧ (calculateRiskScore metrics = 100 ↔
     6 <= failedLogins metrics
     ∧ 4 <= suspiciousActivities metrics
     ∧ 2 <= securityViolations metrics).
Proof. unfold calculateRiskScore. lia. Qed.

Lemma calculateRiskScore_range_witness :
  calculateRiskScore
    {| failedLogins := 3; suspiciousActivities := 1; securityViolations := 0 |} = 25.
Proof.
  destruct (calculateRiskScore_range
              {| failedLogins := 3; suspiciousActivities := 1;
                 securityViolations := 0 |}) as (_ & Hsum & _);
    simpl; try lia.
  rewrite Hsum. reflexivity.
Defined.

(** X22. The risk score never goes down when a count goes up. *)
Theorem calculateRiskScore_monotone (metrics more : Metrics) :
  failedLogins metrics <= failedLogins more →
  suspiciousActivities metrics <= suspiciousActivities more →
  securityViolations metrics <= securityViolations more →
  calculateRiskScore metrics <= calculateRiskScore more.
Proof. unfold calculateRiskScore. lia. Qed.

Lemma calculateRiskScore_monotone_witness :
  calculateRiskScore
    {| failedLogins := 3; suspiciousActivities := 1; securityViolations := 0 |}
  <= calculateRiskScore
       {| failedLogins := 3; suspiciousActivities := 2; securityViolations := 0 |}.
Proof. apply calculateRiskScore_monotone; simpl; lia. Defined.

End RiskScore.

(** ** File content *)

Section FileContent.
Import FileValidator.

Variable sharp_metadata : list Z → option Metadata.
Variable sharp_stats : list Z → option (option Stats).

Lemma signature_differs_false (signature : list Z) :
  ∀ buffer : list Z,
    signature_differs (take (length signature) buffer) signature = false ↔
    take (length signature) buffer = signature.
Proof.
  induction signature as [|s signature IH]; intros buffer; simpl; [done|].
  destruct buffer as [|b buffer]; simpl; [done|].
  rewrite orb_false_iff, negb_false_iff, Z.eqb_eq, IH.
  split; [intros [-> H]; by rewrite H | intros [= -> H]; by split].
Qed.

(** X23. For a type that has an entry in the signature table, a file
    that does not start with the signature bytes, a file shorter than
    the signature included, is refused with the message [File content
    does not match declared type], whatever the image library says. *)
Theorem validateFileContent_signature (buffer : list Z) (mimeType : string)
    (signature : list Z) :
  signature_of mimeType = Some signature →
  take (length signature) buffer ≠ signature →
  validateFileContent sharp_metadata sharp_stats buffer mimeType =
    invalid "File content does not match declared type".
Proof.
  intros Hsig Hdiff. unfold validateFileContent. rewrite Hsig.
  destruct (signature_differs _ signature) eqn:Hd; [done|].
  by apply signature_differs_false in Hd.
Qed.

(** X24. An image that is accepted has both dimensions known,
    non-zero and at most 5000, and the image library returned
    statistics with channels for it. *)
Theorem validateFileContent_image (buffer : list Z) (mimeType : string) :
  JS.startsWith mimeType "image/" = true →
  valid (validateFileContent sharp_metadata sharp_stats buffer mimeType) = true →
  ∃ metadata w h,
    sharp_metadata buffer = Some metadata
    ∧ width metadata = Some w ∧ height metadata = Some h
    ∧ w ≠ 0 ∧ w <= 5000 ∧ h ≠ 0 ∧ h <= 5000
    ∧ sharp_stats buffer = Some (Some {| channels := true |}).
Proof.
  intros Himage. unfold validateFileContent, invalid. rewrite Himage.
  clear Himage.
  destruct (signature_of mimeType) as [signature|];
    [destruct (signature_differs _ signature); [done|] |].
  all: cbn iota.
  all: destruct (sharp_metadata buffer) as [[[w|] [h|]]|]; simpl; try done;
    try (by destruct (Z.eqb w 0)).
  all: destruct (Z.eqb_spec w 0); simpl; [done|];
    destruct (Z.eqb_spec h 0); simpl; [done|];
    destruct (Z.ltb_spec 5000 w); simpl; [done|];
    destruct (Z.ltb_spec 5000 h); simpl; [done|];
    destruct (sharp_stats buffer) as [[[[|]]|]|]; simpl; try done;
    intros _; exists {| width := Some w; height := Some h |}, w, h;
    repeat split; done.
Qed.

End FileContent.

Lemma validateFileContent_signature_witness :
  FileValidator.validateFileContent (fun _ => None) (fun _ => None)
    [60; 115; 99; 114; 105; 112; 116; 62] "image/jpeg" =
    FileValidator.invalid "File content does not match declared type".
Proof.
  apply (validateFileContent_signature (fun _ => None) (fun _ => None)
           [60; 115; 99; 114; 105; 112; 116; 62] "image/jpeg" [255; 216; 255]);
    [reflexivity | discriminate].
Defined.

Lemma validateFileContent_image_witness :
  let meta (_ : list Z) :=
    Some {| FileValidator.width := Some 640; FileValidator.height := Some 480 |} in
  let stats (_ : list Z) := Some (Some {| FileValidator.channels := true |}) in
  ∃ metadata w h,
    meta [137; 80; 78; 71; 13; 10] = Some metadata
    ∧ FileValidator.width metadata = Some w
    ∧ FileValidator.height metadata = Some h
    ∧ w ≠ 0 ∧ w <= 5000 ∧ h ≠ 0 ∧ h <= 5000
    ∧ stats [137; 80; 78; 71; 13; 10] =
        Some (Some {| FileValidator.channels := true |}).
Proof.
  intros meta stats.
  apply (validateFileContent_image meta stats [137; 80; 78; 71; 13; 10]
           "image/png"); reflexivity.
Defined.


(** ** Start-up validation *)

Section Startup.
Import Security.

Implicit Types (env : gmap string string).

(** When the validator of [lib/security.ts] finds nothing to report. *)
Lemma basic_valid env :
  valid (validateEnvironmentVariables env) = true ↔
  ∃ db url secret : string,
    env !! "DATABASE_URL"%string = Some db
    ∧ db ≠ ""%string ∧ JS.startsWith db "postgresql://" = true
    ∧ env !! "NEXTAUTH_URL"%string = Some url ∧ url ≠ ""%string
    ∧ env !! "NEXTAUTH_SECRET"%string = Some secret
    ∧ (32 <= String.length secret)%nat.
Proof.
  unfold validateEnvironmentVariables, missing, required. cbn [valid flat_map].
  rewrite bool_decide_eq_true.
  destruct (env !! "DATABASE_URL"%string) as [[|c db]|] eqn:Hdb;
    destruct (env !! "NEXTAUTH_URL"%string) as [[|d url]|] eqn:Hurl;
    destruct (env !! "NEXTAUTH_SECRET"%string) as [[|x secret]|] eqn:Hsecret;
    cbn [JS.truthy app];
    repeat match goal with
      | |- context [Nat.ltb ?a ?b] => destruct (Nat.ltb_spec a b) as [Hlt|Hge]
      | |- context [JS.startsWith ?a ?b] => destruct (JS.startsWith a b) eqn:?
      end;
    cbn [negb app];
    (split;
     [ intros Hnil
     | intros (db' & url' & secret' & Hd & Hdne & Hs & Hu & Hune & Hsec & Hl) ]);
    try discriminate Hnil;
    try congruence;
    try (inversion Hsec; subst secret'; simpl in *; lia).
  exists (String c db), (String d url), (String x secret). repeat split; done.
Qed.

(** X25. Loading the middleware throws exactly when the environment
    tag is [production] and the configuration fails the validation of
    [lib/security.ts], that is, unless the connection string is present
    and starts with [postgresql://], the base URL is present and the
    secret is present with at least 32 code units. Under any other tag
    it never throws. The errors are logged exactly when the validation
    fails. *)
Theorem startup_throws env :
  (Middleware.thrown (Middleware.startup env) = true ↔
   env !! "NODE_ENV"%string = Some "production"%string
   ∧ ¬ ∃ db url secret : string,
         env !! "DATABASE_URL"%string = Some db
         ∧ db ≠ ""%string ∧ JS.startsWith db "postgresql://" = true
         ∧ env !! "NEXTAUTH_URL"%string = Some url ∧ url ≠ ""%string
         ∧ env !! "NEXTAUTH_SECRET"%string = Some secret
         ∧ (32 <= String.length secret)%nat)
  ∧ (env !! "NODE_ENV"%string ≠ Some "production"%string →
     Middleware.thrown (Middleware.startup env) = false)
  ∧ (Middleware.logged (Middleware.startup env) = None ↔
     valid (validateEnvironmentVariables env) = true).
Proof.
  unfold Middleware.startup. rewrite <- basic_valid.
  destruct (valid (validateEnvironmentVariables env)); simpl.
  - split; [|done]. split; [done|]. by intros [_ []].
  - rewrite bool_decide_eq_true. split; [|split].
    + split; [intros ?; by split | by intros [? _]].
    + intros H. by apply bool_decide_eq_false.
    + done.
Qed.

End Startup.

Lemma startup_throws_witness :
  Middleware.thrown
    (Middleware.startup
       (Samples.env "development" "http://namngam.example" "short"
          Samples.good_db)) = false.
Proof.
  apply (startup_throws
           (Samples.env "development" "http://namngam.example" "short"
              Samples.good_db)).
  discriminate.
Defined.

(** ** More on configuration validation *)

Section ConfigurationMore.
Import EnvValidator.

Variable parse_URL : string → option URLParts.

Implicit Types (env : gmap string string).

(** X26. Each of the four required variables that is absent or empty
    is reported by name, and the report is invalid. *)
Theorem validateEnvironmentVariables_missing env (name : string) :
  name ∈ required →
  JS.truthy (env !! name) = false →
  ("Missing required environment variable: " +:+ name)%string
    ∈ errors (validateEnvironmentVariables parse_URL env)
  ∧ valid (validateEnvironmentVariables parse_URL env) = false.
Proof.
  intros Hname Hfalsy.
  assert (Hin : ("Missing required environment variable: " +:+ name)%string
                  ∈ errors (validateEnvironmentVariables parse_URL env)).
  { apply elem_of_errors. left. by apply missing_elem. }
  split; [done|]. by apply (error_invalid parse_URL env _ Hin).
Qed.

(** X27. An environment tag other than [development], [production]
    and [test] is an error, so the report is invalid. *)
Theorem validateEnvironmentVariables_tag env (tag : string) :
  env !! "NODE_ENV"%string = Some tag →
  tag ≠ ""%string →
  tag ∉ ["development"; "production"; "test"]%string →
  "NODE_ENV must be one of: development, production, test"%string
    ∈ errors (validateEnvironmentVariables parse_URL env)
  ∧ valid (validateEnvironmentVariables parse_URL env) = false.
Proof.
  intros Htag Hne Hunknown.
  assert (Hin : "NODE_ENV must be one of: development, production, test"%string
                  ∈ errors (validateEnvironmentVariables parse_URL env)).
  { apply elem_of_errors. do 4 right.
    unfold environment_tag_errors. rewrite Htag.
    destruct tag as [|c tag]; [done|].
    rewrite bool_decide_eq_false_2 by done. by apply list_elem_of_singleton. }
  split; [done|]. by apply (error_invalid parse_URL env _ Hin).
Qed.

End ConfigurationMore.

Lemma validateEnvironmentVariables_missing_witness :
  let env : gmap string string :=
    {[ "NODE_ENV"%string := "development"%string ]} in
  "Missing required environment variable: NEXTAUTH_SECRET"%string
    ∈ EnvValidator.errors
        (EnvValidator.validateEnvironmentVariables Samples.parse_URL env)
  ∧ EnvValidator.valid
      (EnvValidator.validateEnvironmentVariables Samples.parse_URL env) = false.
Proof.
  intros env.
  apply (validateEnvironmentVariables_missing Samples.parse_URL env
           "NEXTAUTH_SECRET"); [|reflexivity].
  unfold EnvValidator.required. rewrite !elem_of_cons. auto.
Defined.

Lemma validateEnvironmentVariables_tag_witness :
  let env :=
    Samples.env "staging" "https://namngam.example" Samples.good_secret
      Samples.good_db in
  "NODE_ENV must be one of: development, production, test"%string
    ∈ EnvValidator.errors
        (EnvValidator.validateEnvironmentVariables Samples.parse_URL env)
  ∧ EnvValidator.valid
      (EnvValidator.validateEnvironmentVariables Samples.parse_URL env) = false.
Proof.
  intros env.
  apply (validateEnvironmentVariables_tag Samples.parse_URL env "staging");
    [reflexivity | discriminate |].
  rewrite !elem_of_cons, elem_of_nil. intros [H|[H|[H|[]]]]; discriminate H.
Defined.
